(** * Spotify Tamil playlist scraper: a shallow embedding of
      [tamil_playlist_scraper.py] and the properties of its specification.

    The script has two functions, [fetch_tamil_playlists] and
    [run_tamil_playlist_scraper].  Both are embedded below as functions of a
    small state-and-exception monad: the state holds what the script can
    observe or change (the files, the console, how often the clock and the
    search service were consulted), exceptions are values of [exn], and the
    collaborators that are not part of the repository (the search service,
    the clock, the Unicode tables of [re], the failures of the operating
    system and of pandas) are the fields of a [World]. *)

From stdpp Require Import base option list strings gmap.
From Stdlib Require Import NArith ZArith Ascii String Bool Lia.

Set Default Proof Using "Type".
#[local] Set Warnings "-register-all".
Local Open Scope string_scope.
Local Open Scope list_scope.
Local Open Scope stdpp_scope.

(** ** Python values *)

Module Py.

(** A Python [str] is a sequence of Unicode code points. *)
Abbreviation pystr := (list N).

(** [lit s] is the [str] written as the ASCII literal [s] in the source. *)
Definition lit (s : string) : pystr := N_of_ascii <$> list_ascii_of_string s.

(** The exceptions the script raises itself or receives from the
    interpreter, all subclasses of [Exception]; [External] stands for
    whatever a collaborator (spotipy, pandas, the operating system) raises.
    Signals outside [Exception] (KeyboardInterrupt, SystemExit) are not
    modelled. *)
Inductive exn : Type :=
| ValueError (msg : string)
| FileNotFoundError (msg : pystr)
| KeyError (key : string)
| TypeError
| AttributeError
| External (msg : string).

Inductive result (A : Type) : Type :=
| Ok (a : A)
| Raise (e : exn).
Arguments Ok {A} a.
Arguments Raise {A} e.

(** The values found in a decoded JSON answer, in the query column of a
    spreadsheet and in the cells of a table. *)
Inductive pyval : Type :=
| VNone
| VInt (z : Z)
| VStr (s : pystr)
| VList (l : list pyval)
| VTuple (l : list pyval)
| VDict (d : gmap string pyval).

(** [isinstance(v, list)] *)
Definition is_list (v : pyval) : bool :=
  match v with VList _ => true | _ => false end.

(** [v[k]] for a [str] key [k]: only a dict can be subscripted by a string;
    a missing key is a [KeyError], anything else a [TypeError]. *)
Definition getitem (v : pyval) (k : string) : result pyval :=
  match v with
  | VDict d => match d !! k with
               | Some x => Ok x
               | None => Raise (KeyError k)
               end
  | _ => Raise TypeError
  end.

(** [v.get(k, default)]: only a dict has the method. *)
Definition dict_get (v : pyval) (k : string) (otherwise : pyval)
  : result pyval :=
  match v with
  | VDict d => Ok (default otherwise (d !! k))
  | _ => Raise AttributeError
  end.

(** [for x in v]: the elements a [for] loop visits.  A list or tuple gives
    its elements, a string its characters, a dict its keys; [None] and
    numbers are not iterable. *)
Definition iterate (v : pyval) : result (list pyval) :=
  match v with
  | VList l | VTuple l => Ok l
  | VStr s => Ok ((fun c => VStr [c]) <$> s)
  | VDict d => Ok ((fun kv => VStr (lit kv.1)) <$> map_to_list d)
  | VNone | VInt _ => Raise TypeError
  end.

End Py.
Export Py.

(** ** The keyword filter

    Line 87 of the source searches the display name for the pattern
    [\b(?:tamil|kollywood|chennai|madras|tamizh)\b] with [re.IGNORECASE].
    The pattern is a [str], so [re] works on code points with its Unicode
    tables: a word character is an alphanumeric code point or the
    underscore.  The table of alphanumeric code points beyond ASCII belongs
    to the interpreter and is a parameter here. *)

Module Regex.

Section WithUnicode.

(** [str.isalnum] on the code points above 127. *)
Variable unicode_isalnum : N -> bool.

Definition tamil_keywords : list string :=
  ["tamil"; "kollywood"; "chennai"; "madras"; "tamizh"].

Definition ascii_isalnum (c : N) : bool :=
  ((48 <=? c) && (c <=? 57) || (65 <=? c) && (c <=? 90)
   || (97 <=? c) && (c <=? 122))%N.

(** [\w] *)
Definition is_word (c : N) : bool :=
  if (c <? 128)%N then ascii_isalnum c || (c =? 95)%N else unicode_isalnum c.

Definition is_word_opt (c : option N) : bool :=
  match c with Some x => is_word x | None => false end.

(** [\b] between the character [prev] before the position and the
    character [next] after it ([None] at either end of the text): exactly
    one of the two is a word character. *)
Definition at_boundary (prev next : option N) : bool :=
  xorb (is_word_opt prev) (is_word_opt next).

Definition ascii_upper (p : N) : N :=
  if ((97 <=? p) && (p <=? 122))%N then (p - 32)%N else p.

(** The code points a lower-case ASCII letter [p] of the pattern accepts
    under [re.IGNORECASE]: the letter, its capital, and the code points
    whose lower case is the letter or which [re] lists as equivalent:
    U+0130 and U+0131 for i, U+212A for k, U+017F for s. *)
Definition ignorecase_class (p : N) : list N :=
  [p; ascii_upper p]
  ++ (if (p =? 105)%N then [304; 305]
      else if (p =? 107)%N then [8490]
      else if (p =? 115)%N then [383]
      else [])%N.

Definition char_matches (p x : N) : bool :=
  existsb (N.eqb x) (ignorecase_class p).

(** One alternative of the group at the start of [text]: the text after
    the keyword and the last character it consumed. *)
Fixpoint match_keyword (kw : pystr) (last : option N) (text : pystr)
  : option (option N * pystr) :=
  match kw with
  | [] => Some (last, text)
  | p :: kw' =>
      match text with
      | x :: text' =>
          if char_matches p x then match_keyword kw' (Some x) text' else None
      | [] => None
      end
  end.

(** The whole pattern at one position: a boundary, one of the keywords
    (the alternatives are tried in turn, so a keyword that is not followed
    by a boundary does not stop the others), a boundary. *)
Definition match_here (prev : option N) (text : pystr) : bool :=
  at_boundary prev (head text)
  && existsb (fun kw =>
       match match_keyword (lit kw) prev text with
       | Some (last, rest) => at_boundary last (head rest)
       | None => false
       end) tamil_keywords.

(** [re.search] tries every position from left to right. *)
Fixpoint search_from (prev : option N) (text : pystr) : bool :=
  match_here prev text
  || match text with
     | [] => false
     | c :: text' => search_from (Some c) text'
     end.

Definition re_search (name : pystr) : bool := search_from None name.

End WithUnicode.

End Regex.
Export Regex.

(** ** The data model *)

(** A row of the result table: the dict built at lines 88 to 95. *)
Record PlaylistRecord : Type := {
  PlaylistID : pyval;
  PlaylistName : pyval;
  NumSongs : pyval;
  Query : pyval;
  Language : pyval;
  Timestamp : pyval;
}.

(** The result table (a DataFrame with a fresh 0..n-1 index): its rows in
    order. *)
Abbreviation table := (list PlaylistRecord).

(** The input spreadsheet as [pd.read_excel] returns it: the cells of each
    named column, an empty cell being [None] (pandas' NaN). *)
Abbreviation sheet := (gmap string (list (option pyval))).

(** What the script prints, one constructor per [print] of the source. *)
Inductive message : Type :=
| MsgSaved (timestamp : pystr)          (* line 102 *)
| MsgRetrievalError (e : exn)           (* line 107 *)
| MsgStarting (number_of_queries : nat) (* line 132 *)
| MsgCompleted                          (* line 136 *)
| MsgNoPlaylists                        (* line 138 *)
| MsgUnexpected                         (* line 141 *)
| MsgErrorDetail (e : exn).             (* line 142 *)

(** What the script observes and changes.  A file that exists holds either
    a workbook pandas can read or one on which [pd.read_excel] raises. *)
Record State : Type := {
  output_dir : bool;
      (* <cwd>/Spotify_Playlist_Retrieval exists *)
  output_file : option (result table);
      (* <cwd>/Spotify_Playlist_Retrieval/playlist_name_scraping.xlsx *)
  queries_file : option (result sheet);
      (* <cwd>/Queries.xlsx *)
  clock_reads : nat;
      (* how often datetime.now() has been called *)
  api_calls : nat;
      (* how often sp.search has been called *)
  console : list message;
}.

(** The collaborators.  The clock and the search service are consulted by
    the number of the call, so that two calls need not agree. *)
Record World : Type := {
  cwd : pystr;
      (* os.getcwd() *)
  unicode_isalnum : N -> bool;
      (* str.isalnum above ASCII, as re consults it *)
  clock : nat -> pystr;
      (* datetime.now().strftime("%Y-%m-%d %H:%M:%S") at the n-th reading *)
  sp_search : nat -> pyval -> result pyval;
      (* sp.search(q=_, type='playlist', market='IN', limit=10), n-th call *)
  makedirs_raises : option exn;
      (* os.makedirs(base_dir, exist_ok=True) *)
  concat_raises : table -> table -> option exn;
      (* pd.concat([existing, pd.DataFrame(records)], ignore_index=True) *)
  to_excel_raises : table -> option exn;
      (* updated_df.to_excel(output_path, index=False) *)
  to_excel_leaves : table -> option (result table) -> option (result table);
      (* what a call of to_excel that raises leaves of the file it found *)
}.

(** ** State and exceptions *)

Module Eff.

Definition M (A : Type) : Type := State -> result A * State.

Definition ret {A} (a : A) : M A := fun s => (Ok a, s).

Definition raise {A} (e : exn) : M A := fun s => (Raise e, s).

Definition bind {A B} (m : M A) (k : A -> M B) : M B :=
  fun s => match m s with
           | (Ok a, s') => k a s'
           | (Raise e, s') => (Raise e, s')
           end.

(** [try: body  except Exception as e: handler e] *)
Definition try_except {A} (body : M A) (handler : exn -> M A) : M A :=
  fun s => match body s with
           | (Ok a, s') => (Ok a, s')
           | (Raise e, s') => handler e s'
           end.

(** A computation without effects on the state. *)
Definition pure {A} (r : result A) : M A := fun s => (r, s).

Definition get : M State := fun s => (Ok s, s).

Definition modify (f : State -> State) : M unit := fun s => (Ok tt, f s).

(** A collaborator that raises or returns nothing. *)
Definition raise_if (e : option exn) : M unit :=
  match e with Some x => raise x | None => ret tt end.

End Eff.
Export Eff.

Declare Scope eff_scope.
Delimit Scope eff_scope with eff.
Notation "x <- m ;; k" := (bind m (fun x => k))
  (at level 100, m at next level, right associativity) : eff_scope.
Notation "m ;; k" := (bind m (fun _ => k))
  (at level 100, right associativity) : eff_scope.

(** The same sequencing for code that only raises or returns. *)
Definition rbind {A B} (r : result A) (k : A -> result B) : result B :=
  match r with Ok a => k a | Raise e => Raise e end.

Declare Scope res_scope.
Delimit Scope res_scope with res.
Notation "x <- r ;; k" := (rbind r (fun x => k))
  (at level 100, r at next level, right associativity) : res_scope.

(** ** The primitive effects *)

Definition set_output_dir (b : bool) (s : State) : State :=
  {| output_dir := b; output_file := output_file s;
     queries_file := queries_file s; clock_reads := clock_reads s;
     api_calls := api_calls s; console := console s |}.

Definition set_output_file (f : option (result table)) (s : State) : State :=
  {| output_dir := output_dir s; output_file := f;
     queries_file := queries_file s; clock_reads := clock_reads s;
     api_calls := api_calls s; console := console s |}.

Definition tick_clock (s : State) : State :=
  {| output_dir := output_dir s; output_file := output_file s;
     queries_file := queries_file s; clock_reads := S (clock_reads s);
     api_calls := api_calls s; console := console s |}.

Definition tick_api (s : State) : State :=
  {| output_dir := output_dir s; output_file := output_file s;
     queries_file := queries_file s; clock_reads := clock_reads s;
     api_calls := S (api_calls s); console := console s |}.

Definition add_message (m : message) (s : State) : State :=
  {| output_dir := output_dir s; output_file := output_file s;
     queries_file := queries_file s; clock_reads := clock_reads s;
     api_calls := api_calls s; console := console s ++ [m] |}.

Definition print (m : message) : M unit := modify (add_message m).

(** [datetime.now().strftime("%Y-%m-%d %H:%M:%S")] *)
Definition now (w : World) : M pystr :=
  fun s => (Ok (clock w (clock_reads s)), tick_clock s).

(** [os.makedirs(base_dir, exist_ok=True)] *)
Definition makedirs (w : World) : M unit :=
  (raise_if (makedirs_raises w) ;; modify (set_output_dir true))%eff.

(** Lines 72 to 75: the table of an earlier run, or an empty DataFrame. *)
Definition load_existing : M table :=
  fun s => match output_file s with
           | Some f => (f, s)
           | None => (Ok [], s)
           end.

(** [sp.search(q=search_term, type='playlist', market='IN', limit=10)] *)
Definition search (w : World) (search_term : pyval) : M pyval :=
  fun s => (sp_search w (api_calls s) search_term, tick_api s).

(** Line 98.  With [ignore_index=True] the rows of the second frame follow
    those of the first. *)
Definition concat (w : World) (existing new : table) : M table :=
  (raise_if (concat_raises w existing new) ;; ret (existing ++ new))%eff.

(** Line 101.  A call that returns has replaced the file by a workbook
    written from [t]; the state records that table, the encoding of the
    single cells in the workbook being outside the model.  A call that
    raises may already have opened the file and saved a part of the
    workbook: what it leaves of the file it found is the world's
    [to_excel_leaves] (the file as it was when the write was refused
    before it began, a partly written or unreadable workbook otherwise). *)
Definition to_excel (w : World) (t : table) : M unit :=
  fun s => match to_excel_raises w t with
           | Some e =>
               (Raise e,
                set_output_file (to_excel_leaves w t (output_file s)) s)
           | None => (Ok tt, set_output_file (Some (Ok t)) s)
           end.

(** ** The retrieval function *)

(** [re.search(pattern, playlist_name, re.IGNORECASE)] as a truth value;
    anything but a [str] is a [TypeError]. *)
Definition name_matches (w : World) (playlist_name : pyval) : result bool :=
  match playlist_name with
  | VStr s => Ok (re_search (unicode_isalnum w) s)
  | _ => Raise TypeError
  end.

(** Lines 82 to 95: the body of the inner loop. *)
Definition playlist_step (w : World) (current_timestamp : pystr)
    (search_term : pyval) (playlist_records : table) (playlist : pyval)
  : result table :=
  (playlist_id <- dict_get playlist "id" VNone ;;
   playlist_name <- dict_get playlist "name" (VStr []) ;;
   tracks <- getitem playlist "tracks" ;;
   total_tracks <- getitem tracks "total" ;;
   matched <- name_matches w playlist_name ;;
   Ok (if matched : bool
       then playlist_records ++
            [ {| PlaylistID := playlist_id;
                 PlaylistName := playlist_name;
                 NumSongs := total_tracks;
                 Query := search_term;
                 Language := VStr (lit "Tamil");
                 Timestamp := VStr current_timestamp |} ]
       else playlist_records))%res.

(** A [for] loop whose body updates an accumulator or raises. *)
Fixpoint for_each {A B} (body : A -> B -> result A) (acc : A) (l : list B)
  : result A :=
  match l with
  | [] => Ok acc
  | x :: l' => (acc' <- body acc x ;; for_each body acc' l')%res
  end.

(** [search_results['playlists']['items']] as the loop of line 81 walks
    through it. *)
Definition items_of (search_results : pyval) : result (list pyval) :=
  (playlists <- getitem search_results "playlists" ;;
   items <- getitem playlists "items" ;;
   iterate items)%res.

(** Lines 81 to 95: the inner loop over the items of one answer. *)
Definition playlists_of (w : World) (current_timestamp : pystr)
    (search_term : pyval) (playlist_records : table) (search_results : pyval)
  : result table :=
  (its <- items_of search_results ;;
   for_each (playlist_step w current_timestamp search_term)
            playlist_records its)%res.

(** Lines 78 to 95: the loop over the queries. *)
Fixpoint for_each_query (w : World) (current_timestamp : pystr)
    (queries : list pyval) (playlist_records : table) : M table :=
  match queries with
  | [] => ret playlist_records
  | search_term :: rest =>
      (search_results <- search w search_term ;;
       playlist_records' <-
         pure (playlists_of w current_timestamp search_term
                            playlist_records search_results) ;;
       for_each_query w current_timestamp rest playlist_records')%eff
  end.

(** Lines 77 to 104: the body of the [try]. *)
Definition retrieve_and_save (w : World) (queries : pyval)
    (current_timestamp : pystr) (existing_data : table) : M (option table) :=
  (search_terms <- pure (iterate queries) ;;
   playlist_records <- for_each_query w current_timestamp search_terms [] ;;
   updated_df <- concat w existing_data playlist_records ;;
   to_excel w updated_df ;;
   print (MsgSaved current_timestamp) ;;
   ret (Some updated_df))%eff.

(** [fetch_tamil_playlists(queries)]: a table, or [None] for the sentinel. *)
Definition fetch_tamil_playlists (w : World) (queries : pyval)
  : M (option table) :=
  if negb (is_list queries)
  then raise (ValueError "Queries must be provided as a list.")
  else
    (current_timestamp <- now w ;;
     makedirs w ;;
     existing_data <- load_existing ;;
     try_except
       (retrieve_and_save w queries current_timestamp existing_data)
       (fun e => print (MsgRetrievalError e) ;; ret None))%eff.

(** ** The entry routine *)

(** [df_queries['Queries'].dropna().tolist()] *)
Definition dropna (column : list (option pyval)) : list pyval :=
  omap id column.

(** [run_tamil_playlist_scraper()] *)
Definition run_tamil_playlist_scraper (w : World) : M unit :=
  try_except
    (s <- get ;;
     match queries_file s with
     | None =>
         raise (FileNotFoundError (lit "Queries.xlsx not found in " ++ cwd w))
     | Some file =>
         df_queries <- pure file ;;
         match (df_queries : sheet) !! "Queries" with
         | None =>
             raise (KeyError
                      "The Excel file must have a column named 'Queries'.")
         | Some column =>
             let queries := dropna column in
             print (MsgStarting (List.length queries)) ;;
             result_df <- fetch_tamil_playlists w (VList queries) ;;
             match result_df with
             | Some _ => print MsgCompleted
             | None => print MsgNoPlaylists
             end
         end
     end)%eff
    (fun e => print MsgUnexpected ;; print (MsgErrorDetail e))%eff.

(** ** Concrete worlds and answers, used to run the embedding *)

Module Examples.

(** A playlist item as the search service returns it. *)
Definition item_dict (id name : string) (total : Z) : gmap string pyval :=
  <["id" := VStr (lit id)]>
    (<["name" := VStr (lit name)]>
       (<["tracks" := VDict {["total" := VInt total]}]> ∅)).

Definition item (id name : string) (total : Z) : pyval :=
  VDict (item_dict id name total).

Definition answer (items : list pyval) : pyval :=
  VDict {["playlists" := VDict {["items" := VList items]}]}.

Definition item_without_tracks : pyval :=
  VDict (<["id" := VStr (lit "p9")]> {["name" := VStr (lit "Tamil Mix")]}).

Definition item_without_name : pyval :=
  VDict (<["id" := VStr (lit "p7")]>
         {["tracks" := VDict {["total" := VInt 12]}]}).

Definition item_without_id : pyval :=
  VDict (<["name" := VStr (lit "Chennai Gaana")]>
         {["tracks" := VDict {["total" := VInt 30]}]}).

Definition q_hits : pyval := VStr (lit "tamil hits").
Definition q_broken : pyval := VStr (lit "broken").
Definition q_down : pyval := VStr (lit "down").

Definition hits_items : list pyval :=
  [item "p1" "Tamil Hits" 50; item "p2" "tamiland" 8;
   item "p3" "Best of KOLLYWOOD 2024" 40].

(** A service that answers by the query alone. *)
Definition service (n : nat) (q : pyval) : result pyval :=
  match q with
  | VStr s =>
      if decide (s = lit "tamil hits")
      then Ok (answer hits_items)
      else if decide (s = lit "broken")
      then Ok (answer [item "p4" "Madras Days" 21; item_without_tracks])
      else if decide (s = lit "down")
      then Raise (External "HTTP 503")
      else Ok (answer [])
  | _ => Raise (External "bad query")
  end.

Definition world : World :=
  {| cwd := lit "/home/user";
     unicode_isalnum := fun _ => false;
     clock := fun n => match n with
                       | O => lit "2024-01-01 10:00:00"
                       | _ => lit "2024-01-02 10:00:00"
                       end;
     sp_search := service;
     makedirs_raises := None;
     concat_raises := fun _ _ => None;
     to_excel_raises := fun _ => None;
     to_excel_leaves := fun _ found => found |}.

(** The same world with a result file that cannot be opened for writing:
    the write is refused and the file stays as it was. *)
Definition read_only_world : World :=
  {| cwd := cwd world;
     unicode_isalnum := unicode_isalnum world;
     clock := clock world;
     sp_search := service;
     makedirs_raises := None;
     concat_raises := fun _ _ => None;
     to_excel_raises := fun _ => Some (External "Permission denied");
     to_excel_leaves := fun _ found => found |}.







Definition old_row : PlaylistRecord :=
  {| PlaylistID := VStr (lit "p0");
     PlaylistName := VStr (lit "Tamil Melody");
     NumSongs := VInt 17;
     Query := VStr (lit "melody");
     Language := VStr (lit "Tamil");
     Timestamp := VStr (lit "2023-12-31 09:00:00") |}.

(** A row as the script builds it from a well-formed item. *)
Definition row (id name : string) (total : Z) (q : pyval) (ts : string)
  : PlaylistRecord :=
  {| PlaylistID := VStr (lit id);
     PlaylistName := VStr (lit name);
     NumSongs := VInt total;
     Query := q;
     Language := VStr (lit "Tamil");
     Timestamp := VStr (lit ts) |}.

(** The rows of the query [q_hits]: "tamiland" is not among them. *)
Definition hits_rows (ts : string) : table :=
  [row "p1" "Tamil Hits" 50 q_hits ts;
   row "p3" "Best of KOLLYWOOD 2024" 40 q_hits ts].

Definition fresh : State :=
  {| output_dir := false; output_file := None; queries_file := None;
     clock_reads := 0; api_calls := 0; console := [] |}.

Definition with_old_table : State :=
  {| output_dir := true; output_file := Some (Ok [old_row]);
     queries_file := None; clock_reads := 0; api_calls := 0; console := [] |}.

Definition with_queries : State :=
  {| output_dir := false; output_file := None;
     queries_file :=
       Some (Ok {["Queries" := [Some q_hits; None; Some (VStr (lit "jazz"))]]});
     clock_reads := 0; api_calls := 0; console := [] |}.

(** The state after a first run for [q_hits] on top of the old table. *)
Definition after_hits : State :=
  {| output_dir := true;
     output_file := Some (Ok (old_row :: hits_rows "2024-01-01 10:00:00"));
     queries_file := None; clock_reads := 1; api_calls := 1;
     console := [MsgSaved (lit "2024-01-01 10:00:00")] |}.

(** ... and after a second run for the same query. *)
Definition after_hits_twice : State :=
  {| output_dir := true;
     output_file := Some (Ok (old_row :: hits_rows "2024-01-01 10:00:00"
                                ++ hits_rows "2024-01-02 10:00:00"));
     queries_file := None; clock_reads := 2; api_calls := 2;
     console := [MsgSaved (lit "2024-01-01 10:00:00");
                 MsgSaved (lit "2024-01-02 10:00:00")] |}.

End Examples.

(** ** Notions used to state the properties *)

(** The character before the position reached after reading [l], when
    [prev] was the character before [l]. *)
Definition last_or (prev : option N) (l : pystr) : option N :=
  match last l with Some c => Some c | None => prev end.

(** [mid] spells the keyword [kw], letter by letter, in any case. *)
Definition spells (kw mid : pystr) : Prop :=
  Forall2 (fun p x => char_matches p x = true) kw mid.

(** The keyword [kw] occurs in [name] as a whole word, in any case: the
    spec's "case-insensitive whole-word match", written out. *)
Definition occurs_as_word (U : N -> bool) (kw : string) (name : pystr)
  : Prop :=
  exists pre mid post,
    name = pre ++ mid ++ post /\ spells (lit kw) mid
    /\ at_boundary U (last pre) (head mid) = true
    /\ at_boundary U (last mid) (head post) = true.

Definition ascii_only (s : pystr) : Prop := Forall (fun c => (c < 128)%N) s.

Definition ascii_opt (c : option N) : Prop :=
  match c with Some x => (x < 128)%N | None => True end.

Section RunNotions.

Variable w : World.

(** The record the script builds for a matching item. *)
Definition record_of (ts : pystr) (q : pyval) (d : gmap string pyval)
    (total : pyval) : PlaylistRecord :=
  {| PlaylistID := default VNone (d !! "id");
     PlaylistName := default (VStr []) (d !! "name");
     NumSongs := total;
     Query := q;
     Language := VStr (lit "Tamil");
     Timestamp := VStr ts |}.

(** [collect ts n qs] is what the loop over the queries computes when the
    next call of the service is the [n]-th: the records of each query in
    turn, or the first exception.  [calls ts n qs] is the number of
    searches it makes. *)
Fixpoint collect (ts : pystr) (n : nat) (qs : list pyval) : result table :=
  match qs with
  | [] => Ok []
  | q :: rest =>
      (ans <- sp_search w n q ;;
       here <- playlists_of w ts q [] ans ;;
       more <- collect ts (S n) rest ;;
       Ok (here ++ more))%res
  end.

Fixpoint calls (ts : pystr) (n : nat) (qs : list pyval) : nat :=
  match qs with
  | [] => 0
  | q :: rest =>
      S (match (ans <- sp_search w n q ;; playlists_of w ts q [] ans)%res with
         | Ok _ => calls ts (S n) rest
         | Raise _ => 0
         end)
  end.

Definition advance_api (k : nat) (s : State) : State :=
  {| output_dir := output_dir s; output_file := output_file s;
     queries_file := queries_file s; clock_reads := clock_reads s;
     api_calls := api_calls s + k; console := console s |}.

(** The table lines 72 to 75 load. *)
Definition existing_table (s : State) : result table :=
  match output_file s with Some f => f | None => Ok [] end.

(** The state in which the [try] block starts. *)
Definition entered (s : State) : State := set_output_dir true (tick_clock s).

(** An exception raised inside the [try] block of a run that starts in
    state [s] with the table [existing] loaded: in the loop over the
    queries, in the merge, or in the write. *)
Inductive raised_in_try (qs : list pyval) (s : State) (existing : table)
    (e : exn) : Prop :=
| raised_in_loop s2 :
    for_each_query w (clock w (clock_reads s)) qs [] (entered s)
    = (Raise e, s2) ->
    raised_in_try qs s existing e
| raised_in_merge new s2 :
    for_each_query w (clock w (clock_reads s)) qs [] (entered s)
    = (Ok new, s2) ->
    concat_raises w existing new = Some e ->
    raised_in_try qs s existing e
| raised_in_write new s2 :
    for_each_query w (clock w (clock_reads s)) qs [] (entered s)
    = (Ok new, s2) ->
    concat_raises w existing new = None ->
    to_excel_raises w (existing ++ new) = Some e ->
    raised_in_try qs s existing e.

(** The same before the write is reached: in the loop or in the merge. *)
Inductive raised_before_write (qs : list pyval) (s : State)
    (existing : table) (e : exn) : Prop :=
| before_write_in_loop s2 :
    for_each_query w (clock w (clock_reads s)) qs [] (entered s)
    = (Raise e, s2) ->
    raised_before_write qs s existing e
| before_write_in_merge new s2 :
    for_each_query w (clock w (clock_reads s)) qs [] (entered s)
    = (Ok new, s2) ->
    concat_raises w existing new = Some e ->
    raised_before_write qs s existing e.

(** The item [it] is a dict [d] with the track count [total] and a display
    name [name] (the empty string when the dict has none) that passes the
    keyword filter. *)
Definition matching_item (it : pyval) (d : gmap string pyval)
    (total : pyval) (name : pystr) : Prop :=
  it = VDict d
  /\ (exists tracks, d !! "tracks" = Some tracks
                     /\ getitem tracks "total" = Ok total)
  /\ default (VStr []) (d !! "name") = VStr name
  /\ re_search (unicode_isalnum w) name = true.

(** The record [r] stems from an item of the answer [ans] to [q]. *)
Definition produced_by (ts : pystr) (q ans : pyval) (r : PlaylistRecord)
  : Prop :=
  exists its it d total name,
    items_of ans = Ok its /\ it ∈ its /\ matching_item it d total name
    /\ r = record_of ts q d total.

(** The dict has no ['tracks'], or its ['tracks'] is a dict without
    ['total']. *)
Definition lacks_track_count (d : gmap string pyval) : Prop :=
  d !! "tracks" = None
  \/ exists t, d !! "tracks" = Some (VDict t) /\ t !! "total" = None.

End RunNotions.

(** *** The rows a run is expected to add

    The loops of lines 78 to 95, read as a filter followed by a map. *)

Section ExpectedRows.

Variable w : World.

(** The item is a dict whose display name (the empty string when it has
    none) is a string accepted by the keyword filter. *)
Definition passes (it : pyval) : bool :=
  match it with
  | VDict d =>
      match default (VStr []) (d !! "name") with
      | VStr name => re_search (unicode_isalnum w) name
      | _ => false
      end
  | _ => false
  end.

(** The row of an item that has a track count. *)
Definition item_row (ts : pystr) (q it : pyval) : option PlaylistRecord :=
  match it with
  | VDict d =>
      match d !! "tracks" with
      | Some tracks =>
          match getitem tracks "total" with
          | Ok total => Some (record_of ts q d total)
          | Raise _ => None
          end
      | None => None
      end
  | _ => None
  end.

Definition rows_of_items (ts : pystr) (q : pyval) (its : list pyval) : table :=
  omap (item_row ts q) (List.filter passes its).

(** The rows of the queries [qs], the first of which is answered by the
    [n]-th call of the service. *)
Fixpoint expected_rows (ts : pystr) (n : nat) (qs : list pyval) : table :=
  match qs with
  | [] => []
  | q :: rest =>
      match (ans <- sp_search w n q ;; items_of ans)%res with
      | Ok its => rows_of_items ts q its
      | Raise _ => []
      end ++ expected_rows ts (S n) rest
  end.

End ExpectedRows.

(** ** More concrete worlds and states *)

Module MoreExamples.

Definition item_null_name : pyval :=
  VDict (<["id" := VStr (lit "p5")]>
         (<["name" := VNone]>
          {["tracks" := VDict {["total" := VInt 3]}]})).

Definition q_null : pyval := VStr (lit "null name").
Definition q_none : pyval := VStr (lit "null item").
Definition q_bare : pyval := VStr (lit "bare answer").
Definition q_jazz : pyval := VStr (lit "jazz").
Definition q_near : pyval := VStr (lit "near misses").

(** Two names that contain a keyword, neither as a whole word. *)
Definition near_items : list pyval :=
  [Examples.item "p7" "tamiland" 8; Examples.item "p8" "tamil_hits" 5].

(** A service with answers that are not well formed. *)
Definition odd_service (n : nat) (q : pyval) : result pyval :=
  match q with
  | VStr s =>
      if decide (s = lit "null name")
      then Ok (Examples.answer [item_null_name])
      else if decide (s = lit "null item")
      then Ok (Examples.answer [Examples.item "p6" "Tamizh Isai" 9; VNone])
      else if decide (s = lit "bare answer")
      then Ok (VDict ∅)
      else if decide (s = lit "near misses")
      then Ok (Examples.answer near_items)
      else Examples.service n q
  | _ => Examples.service n q
  end.

Definition odd_world : World :=
  {| cwd := cwd Examples.world;
     unicode_isalnum := unicode_isalnum Examples.world;
     clock := clock Examples.world;
     sp_search := odd_service;
     makedirs_raises := None;
     concat_raises := fun _ _ => None;
     to_excel_raises := fun _ => None;
     to_excel_leaves := fun _ found => found |}.

(** A world in which the result directory cannot be created. *)
Definition no_directory_world : World :=
  {| cwd := cwd Examples.world;
     unicode_isalnum := unicode_isalnum Examples.world;
     clock := clock Examples.world;
     sp_search := Examples.service;
     makedirs_raises := Some (External "Permission denied");
     concat_raises := fun _ _ => None;
     to_excel_raises := fun _ => None;
     to_excel_leaves := fun _ found => found |}.

(** A workbook whose only column has another name. *)
Definition no_column : State :=
  {| output_dir := true; output_file := Some (Ok [Examples.old_row]);
     queries_file := Some (Ok {["Phrases" := [Some Examples.q_hits]]});
     clock_reads := 0; api_calls := 0; console := [] |}.

Definition unreadable_queries : State :=
  {| output_dir := true; output_file := Some (Ok [Examples.old_row]);
     queries_file := Some (Raise (External "File is not a zip file"));
     clock_reads := 0; api_calls := 0; console := [] |}.

(** A result file that pandas cannot read. *)
Definition corrupt_table : State :=
  {| output_dir := true;
     output_file := Some (Raise (External "File is not a zip file"));
     queries_file := None; clock_reads := 0; api_calls := 0; console := [] |}.

(** Three cells, the second one empty, on top of an old table. *)
Definition queries_and_table : State :=
  {| output_dir := true; output_file := Some (Ok [Examples.old_row]);
     queries_file :=
       Some (Ok {["Queries" := [Some Examples.q_hits; None; Some q_jazz]]});
     clock_reads := 0; api_calls := 0; console := [] |}.

Definition queries_then_down : State :=
  {| output_dir := true; output_file := Some (Ok [Examples.old_row]);
     queries_file :=
       Some (Ok {["Queries" := [Some Examples.q_hits; Some Examples.q_down;
                                Some q_jazz]]});
     clock_reads := 0; api_calls := 0; console := [] |}.

End MoreExamples.

(** ** Properties of the keyword filter *)

Section RegexFacts.

Variable U : N -> bool.

Lemma last_or_cons prev x l : last_or prev (x :: l) = last_or (Some x) l.
Proof. unfold last_or. rewrite last_cons. by destruct (last l). Qed.

Lemma match_keyword_spec kw prev text l rest :
  match_keyword kw prev text = Some (l, rest) <->
  exists mid, text = mid ++ rest /\ spells kw mid /\ l = last_or prev mid.
Proof.
  revert prev text. induction kw as [|p kw IH]; intros prev text; simpl.
  - split.
    + intros [= <- <-]. exists []. repeat split. constructor.
    + intros (mid & -> & Hs & ->). inversion Hs; subst. reflexivity.
  - destruct text as [|x text].
    + split; [discriminate|].
      intros (mid & Ht & Hs & _). inversion Hs; subst. discriminate.
    + destruct (char_matches p x) eqn:Hc.
      * rewrite IH. split.
        -- intros (mid & -> & Hs & ->). exists (x :: mid).
           rewrite last_or_cons. repeat split. by constructor.
        -- intros (mid & Ht & Hs & ->).
           inversion Hs as [|? y ? mid' Hy Hs']; subst.
           injection Ht as <- ->. exists mid'. by rewrite last_or_cons.
      * split; [discriminate|].
        intros (mid & Ht & Hs & _). inversion Hs as [|? y ? mid' Hy Hs']; subst.
        injection Ht as <- ->. congruence.
Qed.

Lemma spells_length kw mid : spells kw mid -> List.length mid = List.length kw.
Proof. intros H. symmetry. exact (Forall2_length _ _ _ H). Qed.

Lemma keyword_nonempty kw : kw ∈ tamil_keywords -> lit kw <> [].
Proof.
  unfold tamil_keywords. rewrite !elem_of_cons, elem_of_nil.
  intros [->|[->|[->|[->|[->|[]]]]]]; discriminate.
Qed.

Lemma spells_keyword_nonempty kw mid :
  kw ∈ tamil_keywords -> spells (lit kw) mid -> mid <> [].
Proof.
  intros Hkw Hs ->. apply (keyword_nonempty kw Hkw).
  inversion Hs. reflexivity.
Qed.

Lemma last_or_nonempty prev l : l <> [] -> last_or prev l = last l.
Proof.
  intros Hl. unfold last_or. destruct (last l) eqn:E; [done|].
  by apply last_None in E.
Qed.

Lemma last_or_None l : last_or None l = last l.
Proof. unfold last_or. by destruct (last l). Qed.

Lemma head_app_nonempty (l1 l2 : pystr) : l1 <> [] -> head (l1 ++ l2) = head l1.
Proof. by destruct l1. Qed.

(** The pattern at one position: the keyword starts right after [prev]. *)
Lemma match_here_spec prev text :
  match_here U prev text = true <->
  exists kw mid rest,
    kw ∈ tamil_keywords /\ text = mid ++ rest /\ spells (lit kw) mid
    /\ at_boundary U prev (head mid) = true
    /\ at_boundary U (last mid) (head rest) = true.
Proof.
  unfold match_here. rewrite andb_true_iff, existsb_exists. split.
  - intros (Hb & kw & Hkw & Hm). apply list_elem_of_In in Hkw.
    destruct (match_keyword (lit kw) prev text) as [[l rest]|] eqn:E; [|done].
    apply match_keyword_spec in E as (mid & -> & Hs & ->).
    pose proof (spells_keyword_nonempty kw mid Hkw Hs) as Hne.
    exists kw, mid, rest. rewrite head_app_nonempty in Hb by done.
    rewrite last_or_nonempty in Hm by done. done.
  - intros (kw & mid & rest & Hkw & -> & Hs & Hb & He).
    pose proof (spells_keyword_nonempty kw mid Hkw Hs) as Hne.
    rewrite head_app_nonempty by done. split; [done|].
    exists kw. split; [by apply list_elem_of_In|].
    assert (match_keyword (lit kw) prev (mid ++ rest)
            = Some (last_or prev mid, rest)) as ->.
    { apply match_keyword_spec. by exists mid. }
    by rewrite last_or_nonempty.
Qed.

(** The search succeeds when the pattern matches at some position. *)
Lemma search_from_spec prev text :
  search_from U prev text = true <->
  exists pre post,
    text = pre ++ post /\ match_here U (last_or prev pre) post = true.
Proof.
  revert prev. induction text as [|c text IH]; intros prev; simpl.
  - rewrite orb_false_r. split.
    + intros H. by exists [], [].
    + intros (pre & post & Ht & H). symmetry in Ht.
      apply app_eq_nil in Ht as [-> ->]. done.
  - rewrite orb_true_iff, IH. split.
    + intros [H|(pre & post & -> & H)].
      * by exists [], (c :: text).
      * exists (c :: pre), post. by rewrite last_or_cons.
    + intros ([|x pre] & post & Ht & H); simpl in Ht.
      * subst post. by left.
      * injection Ht as <- ->. right. exists pre, post.
        by rewrite last_or_cons in H.
Qed.

Lemma re_search_spec name :
  re_search U name = true <->
  exists kw, kw ∈ tamil_keywords /\ occurs_as_word U kw name.
Proof.
  unfold re_search. rewrite search_from_spec. split.
  - intros (pre & post & -> & H).
    apply match_here_spec in H as (kw & mid & rest & Hkw & -> & Hs & Hb & He).
    rewrite last_or_None in Hb.
    exists kw. split; [done|]. exists pre, mid, rest. done.
  - intros (kw & Hkw & pre & mid & post & -> & Hs & Hb & He).
    exists pre, (mid ++ post). split; [done|].
    apply match_here_spec. exists kw, mid, post.
    rewrite last_or_None. done.
Qed.

End RegexFacts.

(** *** Letter case

    Against an ASCII character a lower-case letter of the pattern accepts
    itself and its capital, nothing else. *)
Lemma char_matches_ascii (p x : N) :
  (97 <= p <= 122)%N -> (x < 128)%N ->
  char_matches p x = true <-> x = p \/ x = (p - 32)%N.
Proof.
  intros Hp Hx. unfold char_matches, ignorecase_class, ascii_upper.
  assert (((97 <=? p) && (p <=? 122))%N = true) as ->.
  { apply andb_true_iff. split; apply N.leb_le; lia. }
  rewrite existsb_app. simpl.
  destruct (p =? 105)%N; [|destruct (p =? 107)%N; [|destruct (p =? 115)%N]];
    simpl; rewrite ?orb_false_r, ?orb_true_iff, ?N.eqb_eq;
    intuition (try discriminate; lia).
Qed.

(** *** The two names of the specification *)

Section RegexExamples.

Variable U : N -> bool.

Lemma re_search_nil : re_search U [] = false.
Proof. reflexivity. Qed.

(** No match starts where "tamiland" starts: the keyword is followed by a
    letter, and no other keyword begins there. *)
Lemma match_here_tamiland prev post :
  match_here U prev (lit "tamiland" ++ post) = false.
Proof.
  unfold match_here. apply andb_false_iff. right. reflexivity.
Qed.

Lemma re_search_tamiland : re_search U (lit "tamiland") = false.
Proof. vm_compute. reflexivity. Qed.

(** "Tamil Hits" after a character that is not a word character, or at the
    start of the name, is a match. *)
Lemma match_here_Tamil_Hits prev post :
  is_word_opt U prev = false ->
  match_here U prev (lit "Tamil Hits" ++ post) = true.
Proof.
  intros H. unfold match_here, at_boundary. rewrite H. reflexivity.
Qed.

Lemma re_search_Tamil_Hits pre post :
  is_word_opt U (last pre) = false ->
  re_search U (pre ++ lit "Tamil Hits" ++ post) = true.
Proof.
  intros H. apply search_from_spec.
  exists pre, (lit "Tamil Hits" ++ post). split; [done|].
  rewrite last_or_None. by apply match_here_Tamil_Hits.
Qed.

End RegexExamples.

(** *** Names written in ASCII

    On a name of ASCII characters the Unicode table is never consulted. *)

Section AsciiNames.

Variables U U' : N -> bool.

Lemma is_word_opt_ascii c : ascii_opt c -> is_word_opt U c = is_word_opt U' c.
Proof.
  destruct c as [c|]; [|done]. simpl. intros Hc. unfold is_word.
  by apply N.ltb_lt in Hc as ->.
Qed.

Lemma at_boundary_ascii a b :
  ascii_opt a -> ascii_opt b -> at_boundary U a b = at_boundary U' a b.
Proof.
  intros Ha Hb. unfold at_boundary.
  by rewrite (is_word_opt_ascii a Ha), (is_word_opt_ascii b Hb).
Qed.

Lemma ascii_opt_head s : ascii_only s -> ascii_opt (head s).
Proof. destruct 1; simpl; done. Qed.

Lemma ascii_opt_last_or prev s :
  ascii_opt prev -> ascii_only s -> ascii_opt (last_or prev s).
Proof.
  intros Hp Hs. unfold last_or. destruct (last s) as [c|] eqn:E; [|done].
  apply last_Some_elem_of in E. simpl.
  unfold ascii_only in Hs. rewrite Forall_forall in Hs. by apply Hs.
Qed.

Lemma match_here_ascii prev text :
  ascii_opt prev -> ascii_only text ->
  match_here U prev text = match_here U' prev text.
Proof.
  intros Hp Ht. unfold match_here.
  rewrite (at_boundary_ascii prev (head text) Hp (ascii_opt_head _ Ht)).
  f_equal. induction tamil_keywords as [|kw kws IH]; [done|]. simpl.
  rewrite IH. f_equal.
  destruct (match_keyword (lit kw) prev text) as [[l rest]|] eqn:E; [|done].
  apply match_keyword_spec in E as (mid & -> & _ & ->).
  apply Forall_app in Ht as [Hmid Hrest].
  apply at_boundary_ascii;
    [by apply ascii_opt_last_or | by apply ascii_opt_head].
Qed.

Lemma search_from_ascii prev text :
  ascii_opt prev -> ascii_only text ->
  search_from U prev text = search_from U' prev text.
Proof.
  revert prev. induction text as [|c text IH]; intros prev Hp Ht; simpl.
  - by rewrite (match_here_ascii prev []).
  - rewrite (match_here_ascii prev (c :: text)) by done.
    apply Forall_cons in Ht as [Hc Ht]. by rewrite (IH (Some c)).
Qed.

Lemma re_search_ascii name :
  ascii_only name -> re_search U name = re_search U' name.
Proof. intros H. by apply search_from_ascii. Qed.

End AsciiNames.

(** ** The loops *)

Section LoopFacts.

Variable w : World.

(** The body of the inner loop returns exactly when the item is a dict
    with a track count and a name that is a string (or no name), and then
    appends the record of the item if the name matches. *)
Lemma playlist_step_Ok ts q acc it acc' :
  playlist_step w ts q acc it = Ok acc' <->
  exists d tracks total name,
    it = VDict d /\ d !! "tracks" = Some tracks
    /\ getitem tracks "total" = Ok total
    /\ default (VStr []) (d !! "name") = VStr name
    /\ acc' = if re_search (unicode_isalnum w) name
              then acc ++ [record_of ts q d total] else acc.
Proof.
  unfold playlist_step. split.
  - destruct it as [| | | | |d]; try discriminate. simpl.
    destruct (d !! "tracks") as [tracks|] eqn:Et; [|discriminate]. simpl.
    destruct (getitem tracks "total") as [total|] eqn:Eo; [|discriminate].
    simpl.
    destruct (default (VStr []) (d !! "name")) as [| |name| | |] eqn:En;
      try discriminate.
    simpl. intros [= <-]. exists d, tracks, total, name.
    unfold record_of. rewrite En. done.
  - intros (d & tracks & total & name & -> & Et & Eo & En & ->). simpl.
    rewrite Et. simpl. rewrite Eo. simpl. rewrite En. simpl.
    unfold record_of. rewrite En. done.
Qed.

Lemma playlist_step_app ts q acc it :
  playlist_step w ts q acc it
  = (new <- playlist_step w ts q [] it ;; Ok (acc ++ new))%res.
Proof.
  unfold playlist_step, rbind.
  destruct (dict_get it "id" VNone); [|done].
  destruct (dict_get it "name" (VStr [])) as [nm|]; [|done].
  destruct (getitem it "tracks") as [tr|]; [|done].
  destruct (getitem tr "total"); [|done].
  destruct (name_matches w nm) as [[]|]; [done| |done].
  by rewrite app_nil_r.
Qed.

(** The inner loop, one item at a time. *)
Lemma for_each_step_cons ts q acc it its :
  for_each (playlist_step w ts q) acc (it :: its)
  = (here <- playlist_step w ts q [] it ;;
     more <- for_each (playlist_step w ts q) [] its ;;
     Ok (acc ++ here ++ more))%res.
Proof.
  revert acc it. induction its as [|it' its IH]; intros acc it; simpl.
  - rewrite playlist_step_app. unfold rbind.
    destruct (playlist_step w ts q [] it); [|done]. by rewrite app_nil_r.
  - rewrite playlist_step_app. unfold rbind at 1 3.
    destruct (playlist_step w ts q [] it) as [here|]; [|done].
    change (for_each (playlist_step w ts q) (acc ++ here) (it' :: its)
            = (more <- for_each (playlist_step w ts q) [] (it' :: its) ;;
               Ok (acc ++ here ++ more))%res).
    rewrite (IH (acc ++ here)), (IH []). unfold rbind.
    destruct (playlist_step w ts q [] it') as [h|]; [|done].
    destruct (for_each (playlist_step w ts q) [] its); [|done].
    simpl. by rewrite <- app_assoc.
Qed.

Lemma for_each_step_app ts q acc its :
  for_each (playlist_step w ts q) acc its
  = (new <- for_each (playlist_step w ts q) [] its ;; Ok (acc ++ new))%res.
Proof.
  destruct its as [|it its]; simpl for_each at 1.
  - simpl. by rewrite app_nil_r.
  - change (for_each (playlist_step w ts q) acc (it :: its)
            = (new <- for_each (playlist_step w ts q) [] (it :: its) ;;
               Ok (acc ++ new))%res).
    rewrite (for_each_step_cons ts q acc), (for_each_step_cons ts q []).
    unfold rbind. destruct (playlist_step w ts q [] it); [|done].
    by destruct (for_each (playlist_step w ts q) [] its).
Qed.

Lemma playlists_of_app ts q acc ans :
  playlists_of w ts q acc ans
  = (new <- playlists_of w ts q [] ans ;; Ok (acc ++ new))%res.
Proof.
  unfold playlists_of. destruct (items_of ans) as [its|]; [|done]. simpl.
  apply for_each_step_app.
Qed.

(** *** The loop over the queries *)

Lemma advance_api_0 s : advance_api 0 s = s.
Proof. destruct s. unfold advance_api. simpl. f_equal. lia. Qed.

Lemma advance_api_tick k s : advance_api k (tick_api s) = advance_api (S k) s.
Proof. unfold advance_api, tick_api. simpl. f_equal. lia. Qed.

Lemma calls_le ts n qs : calls w ts n qs <= List.length qs.
Proof.
  revert n. induction qs as [|q rest IH]; intros n; simpl; [lia|].
  destruct (ans <- sp_search w n q ;; playlists_of w ts q [] ans)%res.
  - specialize (IH (S n)). lia.
  - lia.
Qed.

Lemma calls_collect_Ok ts n qs new :
  collect w ts n qs = Ok new -> calls w ts n qs = List.length qs.
Proof.
  revert n new. induction qs as [|q rest IH]; intros n new; simpl; [done|].
  destruct (sp_search w n q) as [ans|]; [|done]. simpl.
  destruct (playlists_of w ts q [] ans) as [here|]; [|done]. simpl.
  destruct (collect w ts (S n) rest) as [more|] eqn:E; [|done].
  intros _. f_equal. by eapply IH.
Qed.

Lemma for_each_query_run ts qs acc s :
  for_each_query w ts qs acc s
  = ((new <- collect w ts (api_calls s) qs ;; Ok (acc ++ new))%res,
     advance_api (calls w ts (api_calls s) qs) s).
Proof.
  revert acc s. induction qs as [|q rest IH]; intros acc s.
  - simpl. unfold ret. by rewrite app_nil_r, advance_api_0.
  - cbn [for_each_query collect calls]. unfold bind at 1, search.
    destruct (sp_search w (api_calls s) q) as [ans|e]; simpl.
    + unfold bind, pure. rewrite playlists_of_app.
      destruct (playlists_of w ts q [] ans) as [here|e]; simpl.
      * rewrite IH, advance_api_tick. simpl.
        destruct (collect w ts (S (api_calls s)) rest); simpl;
          [by rewrite <- app_assoc | done].
      * by rewrite <- (advance_api_tick 0), advance_api_0.
    + by rewrite <- (advance_api_tick 0), advance_api_0.
Qed.

Lemma for_each_query_Ok ts qs s new s2 :
  for_each_query w ts qs [] s = (Ok new, s2) <->
  collect w ts (api_calls s) qs = Ok new
  /\ s2 = advance_api (List.length qs) s.
Proof.
  rewrite for_each_query_run. split.
  - destruct (collect w ts (api_calls s) qs) as [new'|] eqn:E; [|done].
    simpl. intros [= <- <-]. by rewrite (calls_collect_Ok _ _ _ _ E).
  - intros [E ->]. by rewrite E, (calls_collect_Ok _ _ _ _ E).
Qed.

Lemma for_each_query_Raise ts qs s e :
  collect w ts (api_calls s) qs = Raise e ->
  exists s2, for_each_query w ts qs [] s = (Raise e, s2).
Proof. intros E. rewrite for_each_query_run, E. by eexists. Qed.

End LoopFacts.

(** ** One call of [fetch_tamil_playlists], step by step *)

Section FetchFacts.

Variable w : World.

Lemma retrieve_and_save_run qs ts existing s :
  retrieve_and_save w (VList qs) ts existing s
  = match for_each_query w ts qs [] s with
    | (Raise e, s2) => (Raise e, s2)
    | (Ok new, s2) =>
        match concat_raises w existing new with
        | Some e => (Raise e, s2)
        | None =>
            match to_excel_raises w (existing ++ new) with
            | Some e =>
                (Raise e,
                 set_output_file
                   (to_excel_leaves w (existing ++ new) (output_file s2)) s2)
            | None =>
                (Ok (Some (existing ++ new)),
                 add_message (MsgSaved ts)
                   (set_output_file (Some (Ok (existing ++ new))) s2))
            end
        end
    end.
Proof.
  unfold retrieve_and_save. unfold bind at 1. simpl. unfold bind at 1.
  destruct (for_each_query w ts qs [] s) as [[new|e] s2]; [|done].
  unfold concat, to_excel, bind, raise_if, raise, ret, print, modify.
  destruct (concat_raises w existing new); [done|].
  by destruct (to_excel_raises w (existing ++ new)).
Qed.

Lemma fetch_list_run qs s :
  fetch_tamil_playlists w (VList qs) s
  = match makedirs_raises w with
    | Some e => (Raise e, tick_clock s)
    | None =>
        match existing_table s with
        | Raise e => (Raise e, entered s)
        | Ok existing =>
            match retrieve_and_save w (VList qs) (clock w (clock_reads s))
                    existing (entered s) with
            | (Ok r, s') => (Ok r, s')
            | (Raise e, s') => (Ok None, add_message (MsgRetrievalError e) s')
            end
        end
    end.
Proof.
  unfold fetch_tamil_playlists. simpl.
  unfold bind at 1, now. unfold bind at 1, makedirs, raise_if.
  destruct (makedirs_raises w) as [e|]; [done|].
  unfold bind at 2, ret, modify, bind at 1. simpl.
  unfold load_existing, existing_table, entered.
  unfold bind at 1. simpl.
  destruct (output_file s) as [[existing|e]|]; try done.
Qed.

Lemma for_each_query_files ts qs acc s r s2 :
  for_each_query w ts qs acc s = (r, s2) ->
  output_file s2 = output_file s /\ output_dir s2 = output_dir s
  /\ console s2 = console s /\ clock_reads s2 = clock_reads s
  /\ queries_file s2 = queries_file s.
Proof. rewrite for_each_query_run. intros [= _ <-]. done. Qed.

Lemma raised_before_write_in_try qs s existing e :
  raised_before_write w qs s existing e -> raised_in_try w qs s existing e.
Proof.
  intros [s2 Hl|new s2 Hl Hc].
  - by eapply raised_in_loop.
  - by eapply raised_in_merge.
Qed.

(** A run that enters the [try] block and meets an exception there. *)
Lemma fetch_caught_any qs s existing e :
  makedirs_raises w = None -> existing_table s = Ok existing ->
  raised_in_try w qs s existing e ->
  exists s',
    fetch_tamil_playlists w (VList qs) s = (Ok None, s')
    /\ console s' = console s ++ [MsgRetrievalError e].
Proof.
  intros Hm He Hr. rewrite fetch_list_run, Hm, He, retrieve_and_save_run.
  destruct Hr as [s2 Hl|new s2 Hl Hc|new s2 Hl Hc Hx]; rewrite Hl;
    rewrite ?Hc, ?Hx;
    apply for_each_query_files in Hl as (Hf & _ & Hcons & _);
    (eexists; split; [reflexivity|]); simpl; by rewrite Hcons.
Qed.

(** ... before the write: the result file is not touched. *)
Lemma fetch_caught qs s existing e :
  makedirs_raises w = None -> existing_table s = Ok existing ->
  raised_before_write w qs s existing e ->
  exists s',
    fetch_tamil_playlists w (VList qs) s = (Ok None, s')
    /\ output_file s' = output_file s
    /\ console s' = console s ++ [MsgRetrievalError e].
Proof.
  intros Hm He Hr. rewrite fetch_list_run, Hm, He, retrieve_and_save_run.
  destruct Hr as [s2 Hl|new s2 Hl Hc]; rewrite Hl; rewrite ?Hc;
    apply for_each_query_files in Hl as (Hf & _ & Hcons & _);
    (eexists; split; [reflexivity|]); simpl; by rewrite Hf, Hcons.
Qed.


(** A run in which nothing raises. *)
Lemma fetch_success qs s existing new s2 :
  makedirs_raises w = None -> existing_table s = Ok existing ->
  for_each_query w (clock w (clock_reads s)) qs [] (entered s) = (Ok new, s2) ->
  concat_raises w existing new = None ->
  to_excel_raises w (existing ++ new) = None ->
  fetch_tamil_playlists w (VList qs) s
  = (Ok (Some (existing ++ new)),
     add_message (MsgSaved (clock w (clock_reads s)))
       (set_output_file (Some (Ok (existing ++ new))) s2)).
Proof.
  intros Hm He Hl Hc Hx.
  by rewrite fetch_list_run, Hm, He, retrieve_and_save_run, Hl, Hc, Hx.
Qed.

(** What a returned table tells about the run. *)
Lemma fetch_returns_table queries s t s' :
  fetch_tamil_playlists w queries s = (Ok (Some t), s') ->
  exists qs existing new s2,
    queries = VList qs
    /\ makedirs_raises w = None /\ existing_table s = Ok existing
    /\ for_each_query w (clock w (clock_reads s)) qs [] (entered s)
       = (Ok new, s2)
    /\ concat_raises w existing new = None
    /\ to_excel_raises w (existing ++ new) = None
    /\ t = existing ++ new
    /\ s' = add_message (MsgSaved (clock w (clock_reads s)))
              (set_output_file (Some (Ok (existing ++ new))) s2).
Proof.
  destruct queries as [| | |qs| |]; try discriminate.
  rewrite fetch_list_run.
  destruct (makedirs_raises w) as [e|] eqn:Hm; [discriminate|].
  destruct (existing_table s) as [existing|e] eqn:He; [|discriminate].
  rewrite retrieve_and_save_run.
  destruct (for_each_query w _ qs [] (entered s)) as [[new|e] s2] eqn:Hl;
    [|discriminate].
  destruct (concat_raises w existing new) eqn:Hc; [discriminate|].
  destruct (to_excel_raises w (existing ++ new)) eqn:Hx; [discriminate|].
  intros [= <- <-]. exists qs, existing, new, s2. done.
Qed.

(** The only exceptions that leave the function. *)
Lemma fetch_raises_inv queries s e s' :
  fetch_tamil_playlists w queries s = (Raise e, s') ->
  is_list queries = false
  /\ e = ValueError "Queries must be provided as a list." /\ s' = s
  \/ is_list queries = true /\ makedirs_raises w = Some e
  \/ is_list queries = true /\ makedirs_raises w = None
     /\ existing_table s = Raise e.
Proof.
  destruct queries as [| | |qs| |];
    try (intros [= <- <-]; left; done).
  rewrite fetch_list_run. intros H. right.
  destruct (makedirs_raises w) as [e0|] eqn:Hm.
  { injection H as <- <-. by left. }
  destruct (existing_table s) as [existing|e0] eqn:He.
  - destruct (retrieve_and_save w _ _ existing (entered s)) as [[r|e1] s1];
      discriminate.
  - injection H as <- <-. by right.
Qed.

End FetchFacts.

(** ** The records a run collects *)

Section RecordFacts.

Variable w : World.

Lemma playlist_step_nil_Ok ts q it new :
  playlist_step w ts q [] it = Ok new ->
  (new = [] /\ forall d total name, ~ matching_item w it d total name)
  \/ exists d total name,
       matching_item w it d total name /\ new = [record_of ts q d total].
Proof.
  intros H. apply playlist_step_Ok in H
    as (d & tracks & total & name & -> & Ht & Ho & Hn & ->).
  destruct (re_search (unicode_isalnum w) name) eqn:Hs.
  - right. exists d, total, name. split; [|done].
    split; [done|]. split; [by exists tracks|]. done.
  - left. split; [done|]. intros d' total' name' (Hd & _ & Hn' & Hs').
    injection Hd as <-. congruence.
Qed.

Lemma inner_loop_sound ts q its new :
  for_each (playlist_step w ts q) [] its = Ok new ->
  Forall (fun r => exists it d total name,
            it ∈ its /\ matching_item w it d total name
            /\ r = record_of ts q d total) new.
Proof.
  revert new. induction its as [|it its IH]; intros new.
  - intros [= <-]. constructor.
  - rewrite for_each_step_cons.
    destruct (playlist_step w ts q [] it) as [here|] eqn:Eh; [|done]. simpl.
    destruct (for_each (playlist_step w ts q) [] its) as [more|]; [|done].
    simpl. intros [= <-]. apply Forall_app. split.
    + apply playlist_step_nil_Ok in Eh
        as [[-> _]|(d & total & name & Hm & ->)]; [constructor|].
      repeat constructor. exists it, d, total, name.
      split; [apply list_elem_of_here|done].
    + eapply Forall_impl; [by apply IH|]. simpl.
      intros r (it' & d & total & name & Hin & Hm & ->).
      exists it', d, total, name. split; [by apply list_elem_of_further|done].
Qed.

Lemma inner_loop_complete ts q its new it d total name :
  for_each (playlist_step w ts q) [] its = Ok new ->
  it ∈ its -> matching_item w it d total name ->
  record_of ts q d total ∈ new.
Proof.
  revert new. induction its as [|it' its IH]; intros new Hf Hin Hm.
  - by apply elem_of_nil in Hin.
  - rewrite for_each_step_cons in Hf.
    destruct (playlist_step w ts q [] it') as [here|] eqn:Eh; [|done].
    simpl in Hf.
    destruct (for_each (playlist_step w ts q) [] its) as [more|]; [|done].
    simpl in Hf. injection Hf as <-.
    apply elem_of_app. apply elem_of_cons in Hin as [->|Hin].
    + left. apply playlist_step_nil_Ok in Eh
        as [[_ Hno]|(d' & total' & name' & Hm' & ->)].
      * by destruct (Hno d total name).
      * destruct Hm as (Hd & (tr & Ht & Ho) & _).
        destruct Hm' as (Hd' & (tr' & Ht' & Ho') & _).
        rewrite Hd in Hd'. injection Hd' as <-.
        rewrite Ht in Ht'. injection Ht' as <-.
        rewrite Ho in Ho'. injection Ho' as <-.
        apply list_elem_of_here.
    + right. by apply IH.
Qed.

Lemma playlists_of_sound ts q ans new :
  playlists_of w ts q [] ans = Ok new -> Forall (produced_by w ts q ans) new.
Proof.
  unfold playlists_of. destruct (items_of ans) as [its|] eqn:Ei; [|done].
  simpl. intros H. apply inner_loop_sound in H.
  eapply Forall_impl; [exact H|]. simpl.
  intros r (it & d & total & name & Hin & Hm & ->).
  by exists its, it, d, total, name.
Qed.

Lemma playlists_of_complete ts q ans new r :
  playlists_of w ts q [] ans = Ok new -> produced_by w ts q ans r -> r ∈ new.
Proof.
  unfold playlists_of.
  intros H (its & it & d & total & name & Hi & Hin & Hm & ->).
  rewrite Hi in H. simpl in H. by eapply inner_loop_complete.
Qed.

(** The records of a successful loop are those of its answers, and no
    others. *)
Lemma collect_sound ts n qs new :
  collect w ts n qs = Ok new ->
  Forall (fun r => exists i q ans,
            qs !! i = Some q /\ sp_search w (n + i) q = Ok ans
            /\ produced_by w ts q ans r) new.
Proof.
  revert n new. induction qs as [|q rest IH]; intros n new; simpl.
  - intros [= <-]. constructor.
  - destruct (sp_search w n q) as [ans|] eqn:Es; [|done]. simpl.
    destruct (playlists_of w ts q [] ans) as [here|] eqn:Eh; [|done]. simpl.
    destruct (collect w ts (S n) rest) as [more|] eqn:Em; [|done]. simpl.
    intros [= <-]. apply Forall_app. split.
    + eapply Forall_impl; [by apply playlists_of_sound|]. simpl.
      intros r Hr. exists 0, q, ans. by rewrite Nat.add_0_r.
    + eapply Forall_impl; [by apply IH|]. simpl.
      intros r (i & q' & ans' & Hq & Hs & Hr). exists (S i), q', ans'.
      by rewrite Nat.add_succ_r.
Qed.

Lemma collect_complete ts n qs new i q ans r :
  collect w ts n qs = Ok new ->
  qs !! i = Some q -> sp_search w (n + i) q = Ok ans ->
  produced_by w ts q ans r -> r ∈ new.
Proof.
  revert n new i. induction qs as [|q' rest IH]; intros n new i; simpl.
  - intros _ Hq. by rewrite lookup_nil in Hq.
  - destruct (sp_search w n q') as [ans'|] eqn:Es; [|done]. simpl.
    destruct (playlists_of w ts q' [] ans') as [here|] eqn:Eh; [|done]. simpl.
    destruct (collect w ts (S n) rest) as [more|] eqn:Em; [|done]. simpl.
    intros [= <-] Hq Hs Hr. apply elem_of_app. destruct i as [|i].
    + injection Hq as ->. rewrite Nat.add_0_r, Es in Hs. injection Hs as ->.
      left. by eapply playlists_of_complete.
    + right. eapply (IH (S n) more i); [done|done| |done].
      by rewrite Nat.add_succ_r in Hs.
Qed.

(** *** Items without a track count *)

Lemma playlist_step_lacks_track_count ts q acc d :
  lacks_track_count d ->
  exists k, playlist_step w ts q acc (VDict d) = Raise (KeyError k).
Proof.
  intros [Ht|(t & Ht & Ho)]; unfold playlist_step; simpl; rewrite Ht; simpl.
  - by exists "tracks".
  - rewrite Ho. by exists "total".
Qed.

(** One item on which the body raises makes the inner loop raise. *)
Lemma inner_loop_raises ts q its it e :
  it ∈ its -> playlist_step w ts q [] it = Raise e ->
  exists e', for_each (playlist_step w ts q) [] its = Raise e'.
Proof.
  induction its as [|it' its IH]; intros Hin He.
  - by apply elem_of_nil in Hin.
  - rewrite for_each_step_cons.
    destruct (playlist_step w ts q [] it') as [here|e0] eqn:Eh;
      [|by exists e0].
    simpl. apply elem_of_cons in Hin as [->|Hin]; [congruence|].
    destruct (IH Hin He) as [e' ->]. by exists e'.
Qed.

(** ... and the loop over the queries with it. *)
Lemma collect_raises ts n qs i q ans its it e :
  qs !! i = Some q -> sp_search w (n + i) q = Ok ans ->
  items_of ans = Ok its -> it ∈ its ->
  playlist_step w ts q [] it = Raise e ->
  exists e', collect w ts n qs = Raise e'.
Proof.
  revert n i. induction qs as [|q' rest IH]; intros n i Hq Hs Hi Hin He.
  - by rewrite lookup_nil in Hq.
  - simpl. destruct i as [|i].
    + injection Hq as ->. rewrite Nat.add_0_r in Hs. rewrite Hs. simpl.
      unfold playlists_of. rewrite Hi. simpl.
      destruct (inner_loop_raises ts q its it e Hin He) as [e' ->].
      by exists e'.
    + destruct (sp_search w n q') as [ans'|e0]; [|by exists e0]. simpl.
      destruct (playlists_of w ts q' [] ans') as [here|e0]; [|by exists e0].
      simpl. rewrite Nat.add_succ_r in Hs.
      destruct (IH (S n) i Hq Hs Hi Hin He) as [e' ->]. by exists e'.
Qed.

End RecordFacts.

(** ** The entry routine *)

Lemma run_never_raises (w : World) (s : State) :
  exists s', run_tamil_playlist_scraper w s = (Ok tt, s').
Proof.
  unfold run_tamil_playlist_scraper, try_except.
  match goal with |- context [match ?b with _ => _ end] =>
    destruct b as [[[]|e] s1] end.
  - by exists s1.
  - eexists. reflexivity.
Qed.

(** ** Two runs of the examples *)

Lemma run_hits :
  fetch_tamil_playlists Examples.world (VList [Examples.q_hits])
    Examples.with_old_table
  = (Ok (Some (Examples.old_row :: Examples.hits_rows "2024-01-01 10:00:00")),
     Examples.after_hits).
Proof. vm_compute. reflexivity. Qed.

Lemma run_hits_again :
  fetch_tamil_playlists Examples.world (VList [Examples.q_hits])
    Examples.after_hits
  = (Ok (Some (Examples.old_row :: Examples.hits_rows "2024-01-01 10:00:00"
                 ++ Examples.hits_rows "2024-01-02 10:00:00")),
     Examples.after_hits_twice).
Proof. vm_compute. reflexivity. Qed.

(** ** The properties of the specification *)

(** C8. Whatever is passed for [queries], if it is not a list the function
    raises the [ValueError] of line 57 and does nothing else: the state is
    the one it was called in, so no search was made. *)
Theorem non_list_raises_ValueError (w : World) (queries : pyval) (s : State) :
  is_list queries = false ->
  fetch_tamil_playlists w queries s
  = (Raise (ValueError "Queries must be provided as a list."), s).
Proof. intros H. unfold fetch_tamil_playlists. by rewrite H. Qed.

Lemma non_list_raises_ValueError_witness :
  is_list (VTuple [Examples.q_hits]) = false
  /\ fetch_tamil_playlists Examples.world (VTuple [Examples.q_hits])
       Examples.fresh
     = (Raise (ValueError "Queries must be provided as a list."),
        Examples.fresh).
Proof.
  split; [reflexivity|]. apply non_list_raises_ValueError. reflexivity.
Defined.

(** C3. With an empty list of queries, a table that is returned is the
    table that was on disk before (the empty table when there was no
    file), it is what the file holds afterwards, and no search was made;
    and the call does return it whenever the directory, the merge and the
    write do not fail. *)
Theorem empty_query_list_keeps_table (w : World) (s : State) :
  (forall t s',
      fetch_tamil_playlists w (VList []) s = (Ok (Some t), s') ->
      existing_table s = Ok t /\ output_file s' = Some (Ok t)
      /\ api_calls s' = api_calls s)
  /\ (forall existing,
        makedirs_raises w = None -> existing_table s = Ok existing ->
        concat_raises w existing [] = None ->
        to_excel_raises w existing = None ->
        exists s',
          fetch_tamil_playlists w (VList []) s = (Ok (Some existing), s')
          /\ output_file s' = Some (Ok existing)).
Proof.
  split.
  - intros t s' H.
    apply fetch_returns_table in H
      as (qs & existing & new & s2 & [= <-] & _ & He & Hl & _ & _ & -> & ->).
    simpl in Hl. injection Hl as <- <-. rewrite app_nil_r. done.
  - intros existing Hm He Hc Hx.
    assert (to_excel_raises w (existing ++ []) = None) as Hx'
      by (by rewrite app_nil_r).
    pose proof (fetch_success w [] s existing [] (entered s)
                  Hm He eq_refl Hc Hx') as H.
    rewrite app_nil_r in H. eexists. split; [exact H|]. reflexivity.
Qed.

Lemma empty_query_list_keeps_table_witness :
  exists s',
    fetch_tamil_playlists Examples.world (VList []) Examples.with_old_table
    = (Ok (Some [Examples.old_row]), s')
    /\ output_file s' = Some (Ok [Examples.old_row]).
Proof.
  apply (proj2 (empty_query_list_keeps_table Examples.world
                  Examples.with_old_table) [Examples.old_row]);
    reflexivity.
Defined.

(** C4. The table a run returns is the table it has written, and it is
    the table loaded from disk followed by the records collected in this
    run: every old row keeps its position, and the new rows come after all
    of them in the order in which the loop produced them. *)
Theorem table_is_old_rows_then_new (w : World) (queries : pyval)
    (s : State) (t : table) (s' : State) :
  fetch_tamil_playlists w queries s = (Ok (Some t), s') ->
  exists qs existing new s2,
    queries = VList qs /\ existing_table s = Ok existing
    /\ for_each_query w (clock w (clock_reads s)) qs [] (entered s)
       = (Ok new, s2)
    /\ t = existing ++ new
    /\ output_file s' = Some (Ok t)
    /\ (forall i r, existing !! i = Some r -> t !! i = Some r)
    /\ (forall j r, new !! j = Some r ->
                    t !! (List.length existing + j) = Some r).
Proof.
  intros H.
  apply fetch_returns_table in H
    as (qs & existing & new & s2 & -> & _ & He & Hl & _ & _ & -> & ->).
  exists qs, existing, new, s2. repeat split; try done.
  - intros i r Hi. by apply lookup_app_l_Some.
  - intros j r Hj. by rewrite lookup_app_r, Nat.add_comm, Nat.add_sub by lia.
Qed.

Lemma table_is_old_rows_then_new_witness :
  fetch_tamil_playlists Examples.world (VList [Examples.q_hits])
    Examples.with_old_table
  = (Ok (Some (Examples.old_row :: Examples.hits_rows "2024-01-01 10:00:00")),
     Examples.after_hits)
  /\ (Examples.old_row :: Examples.hits_rows "2024-01-01 10:00:00") !! 0
     = Some Examples.old_row
  /\ output_file Examples.after_hits
     = Some (Ok (Examples.old_row :: Examples.hits_rows "2024-01-01 10:00:00")).
Proof.
  split; [exact run_hits|].
  destruct (table_is_old_rows_then_new _ _ _ _ _ run_hits)
    as (qs & existing & new & s2 & _ & He & _ & _ & Hf & Hold & _).
  split; [|exact Hf]. apply Hold. injection He as <-. reflexivity.
Defined.




(** C7, as the code has it.  Once the [try] block is entered no exception
    leaves the function: the call returns, and it returns [None] exactly
    when something was raised in the loop, the merge or the write.  An
    argument that is not a list is rejected before the [try]: that
    exception does leave the function.  The entry routine, which is the
    caller, never raises. *)
Theorem try_block_errors_become_sentinel (w : World) :
  (forall qs s existing,
      makedirs_raises w = None -> existing_table s = Ok existing ->
      exists r s',
        fetch_tamil_playlists w (VList qs) s = (Ok r, s')
        /\ (r = None <-> exists e, raised_in_try w qs s existing e))
  /\ (forall queries s,
        is_list queries = false ->
        exists e, fetch_tamil_playlists w queries s = (Raise e, s))
  /\ (forall s, exists s', run_tamil_playlist_scraper w s = (Ok tt, s')).
Proof.
  split; [|split].
  - intros qs s existing Hm He.
    rewrite fetch_list_run, Hm, He, retrieve_and_save_run.
    destruct (for_each_query w _ qs [] (entered s)) as [[new|e] s2] eqn:Hl.
    + destruct (concat_raises w existing new) as [e|] eqn:Hc.
      { exists None. eexists. split; [reflexivity|]. split; [|done].
        intros _. exists e. by eapply raised_in_merge. }
      destruct (to_excel_raises w (existing ++ new)) as [e|] eqn:Hx.
      { exists None. eexists. split; [reflexivity|]. split; [|done].
        intros _. exists e. by eapply raised_in_write. }
      eexists. eexists. split; [reflexivity|]. split; [done|].
      intros [e [s3 H|new' s3 H Hc'|new' s3 H Hc' Hx']];
        rewrite Hl in H; simplify_eq.
    + exists None. eexists. split; [reflexivity|]. split; [|done].
      intros _. exists e. by eapply raised_in_loop.
  - intros queries s H. eexists. unfold fetch_tamil_playlists.
    rewrite H. reflexivity.
  - apply run_never_raises.
Qed.

Lemma try_block_errors_become_sentinel_witness :
  exists r s',
    fetch_tamil_playlists Examples.world (VList [Examples.q_down])
      Examples.with_old_table = (Ok r, s')
    /\ (r = None <->
        exists e, raised_in_try Examples.world [Examples.q_down]
                    Examples.with_old_table [Examples.old_row] e).
Proof.
  apply (proj1 (try_block_errors_become_sentinel Examples.world));
    reflexivity.
Defined.

(** C7 as stated fails: a tuple of queries is not a list, and the
    [ValueError] it provokes is not turned into the sentinel but reaches
    the caller. *)
Lemma bad_input_type_escapes :
  fetch_tamil_playlists Examples.world (VTuple [Examples.q_hits])
    Examples.with_old_table
  = (Raise (ValueError "Queries must be provided as a list."),
     Examples.with_old_table).
Proof. reflexivity. Qed.

(** C9. Without [Queries.xlsx] the entry routine prints its error marker
    and the [FileNotFoundError], and returns normally; the result file and
    its directory are untouched, and neither the clock nor the search
    service was consulted. *)
Theorem missing_queries_file (w : World) (s : State) :
  queries_file s = None ->
  exists s',
    run_tamil_playlist_scraper w s = (Ok tt, s')
    /\ console s'
       = console s
         ++ [MsgUnexpected;
             MsgErrorDetail
               (FileNotFoundError (lit "Queries.xlsx not found in " ++ cwd w))]
    /\ output_file s' = output_file s /\ output_dir s' = output_dir s
    /\ api_calls s' = api_calls s /\ clock_reads s' = clock_reads s.
Proof.
  intros H. eexists. split.
  - unfold run_tamil_playlist_scraper, try_except, bind at 1, get.
    rewrite H. reflexivity.
  - simpl. by rewrite <- app_assoc.
Qed.

Lemma missing_queries_file_witness :
  exists s',
    run_tamil_playlist_scraper Examples.world Examples.with_old_table
    = (Ok tt, s')
    /\ console s'
       = [MsgUnexpected;
          MsgErrorDetail
            (FileNotFoundError (lit "Queries.xlsx not found in /home/user"))]
    /\ output_file s' = Some (Ok [Examples.old_row]).
Proof.
  destruct (missing_queries_file Examples.world Examples.with_old_table
              eq_refl) as (s' & Hr & Hc & Hf & _).
  exists s'. split; [exact Hr|]. split; [exact Hc|exact Hf].
Defined.

(** C1, as the code has it.  The filter accepts a name exactly when one of
    the five keywords occurs in it, letters compared without regard to
    case (an ASCII character spells a letter of a keyword when it is that
    letter or its capital), with a word boundary before and after; a
    record is appended for an item exactly when its name is accepted.
    The name "tamiland" is rejected and no match ever starts where
    "tamiland" starts; a name containing "Tamil Hits" is accepted when the
    character before that occurrence, if there is one, is not a word
    character. *)
Theorem keyword_filter_is_whole_word_match (w : World) :
  let U := unicode_isalnum w in
  (forall name,
      re_search U name = true <->
      exists kw, kw ∈ ["tamil"; "kollywood"; "chennai"; "madras"; "tamizh"]
                 /\ occurs_as_word U kw name)
  /\ (forall p x,
        (97 <= p <= 122)%N -> (x < 128)%N ->
        char_matches p x = true <-> x = p \/ x = (p - 32)%N)
  /\ re_search U (lit "tamiland") = false
  /\ (forall prev post, match_here U prev (lit "tamiland" ++ post) = false)
  /\ (forall pre post,
        is_word_opt U (last pre) = false ->
        re_search U (pre ++ lit "Tamil Hits" ++ post) = true)
  /\ (forall ts q acc it acc',
        playlist_step w ts q acc it = Ok acc' ->
        exists d total name,
          it = VDict d /\ default (VStr []) (d !! "name") = VStr name
          /\ acc' = if re_search U name
                    then acc ++ [record_of ts q d total] else acc).
Proof.
  intros U. split; [|split; [|split; [|split; [|split]]]].
  - intros name. apply re_search_spec.
  - apply char_matches_ascii.
  - apply re_search_tamiland.
  - apply match_here_tamiland.
  - apply re_search_Tamil_Hits.
  - intros ts q acc it acc' H.
    apply playlist_step_Ok in H
      as (d & tracks & total & name & -> & _ & _ & Hn & ->).
    by exists d, total, name.
Qed.

Lemma keyword_filter_is_whole_word_match_witness :
  is_word_opt (unicode_isalnum Examples.world) (last (lit "Best ")) = false
  /\ re_search (unicode_isalnum Examples.world)
       (lit "Best " ++ lit "Tamil Hits" ++ lit " 2024") = true.
Proof.
  split; [reflexivity|].
  apply (keyword_filter_is_whole_word_match Examples.world). reflexivity.
Defined.

(** Whatever the Unicode table, a name that contains "tamiland" can pass
    the filter and one that contains "Tamil Hits" can fail it. *)
Lemma containing_is_not_deciding (U : N -> bool) :
  re_search U (lit "tamil tamiland") = true
  /\ re_search U (lit "MyTamil Hits") = false.
Proof. split; vm_compute; reflexivity. Qed.

(** C1 as stated fails on both counts: "tamil tamiland" contains
    "tamiland" and is accepted (through its first word), "MyTamil Hits"
    contains "Tamil Hits" and is rejected (no keyword stands alone). *)
Lemma containing_tamiland_can_match :
  lit "tamil tamiland" = lit "tamil " ++ lit "tamiland" ++ []
  /\ re_search (unicode_isalnum Examples.world) (lit "tamil tamiland") = true
  /\ lit "MyTamil Hits" = lit "My" ++ lit "Tamil Hits" ++ []
  /\ re_search (unicode_isalnum Examples.world) (lit "MyTamil Hits") = false.
Proof. repeat split. Qed.

(** C6. In a run that returns a table, the new rows all carry the
    language label "Tamil" and the one timestamp read from the clock at
    the start of the run (the clock is read once), and each stems from a
    matching item of the answer to the query it names.  Conversely every
    matching item of every answer has its row, with the query that brought
    it, the label, that timestamp, and the item's name, identifier and
    track count. *)
Theorem new_rows_carry_label_query_timestamp (w : World) (queries : pyval)
    (s : State) (t : table) (s' : State) :
  fetch_tamil_playlists w queries s = (Ok (Some t), s') ->
  let ts := clock w (clock_reads s) in
  exists qs existing new,
    queries = VList qs /\ existing_table s = Ok existing
    /\ t = existing ++ new
    /\ clock_reads s' = S (clock_reads s)
    /\ Forall (fun r =>
         Language r = VStr (lit "Tamil") /\ Timestamp r = VStr ts
         /\ exists i ans,
              qs !! i = Some (Query r)
              /\ sp_search w (api_calls s + i) (Query r) = Ok ans
              /\ produced_by w ts (Query r) ans r) new
    /\ (forall i q ans its it d total name,
          qs !! i = Some q -> sp_search w (api_calls s + i) q = Ok ans ->
          items_of ans = Ok its -> it ∈ its ->
          matching_item w it d total name ->
          exists r,
            r ∈ new /\ Query r = q /\ Language r = VStr (lit "Tamil")
            /\ Timestamp r = VStr ts /\ PlaylistName r = VStr name
            /\ PlaylistID r = default VNone (d !! "id")
            /\ NumSongs r = total).
Proof.
  intros H ts.
  apply fetch_returns_table in H
    as (qs & existing & new & s2 & -> & _ & He & Hl & _ & _ & -> & ->).
  apply for_each_query_Ok in Hl as [Hc ->]. simpl in Hc. fold ts in Hc.
  exists qs, existing, new. repeat split; try done.
  - eapply Forall_impl; [by apply collect_sound|]. simpl.
    intros r (i & q & ans & Hq & Hs & Hp).
    assert (Query r = q /\ Language r = VStr (lit "Tamil")
            /\ Timestamp r = VStr ts) as (Hrq & Hrl & Hrt).
    { destruct Hp as (? & ? & ? & ? & ? & _ & _ & _ & ->). done. }
    subst q. split; [done|]. split; [done|]. by exists i, ans.
  - intros i q ans its it d total name Hq Hs Hi Hin Hm.
    exists (record_of ts q d total). split.
    + eapply collect_complete; [exact Hc|exact Hq|exact Hs|].
      by exists its, it, d, total, name.
    + destruct Hm as (_ & _ & Hn & _). simpl. by rewrite Hn.
Qed.

Lemma new_rows_carry_label_query_timestamp_witness :
  exists r,
    r ∈ Examples.old_row :: Examples.hits_rows "2024-01-01 10:00:00"
    /\ Query r = Examples.q_hits /\ Language r = VStr (lit "Tamil")
    /\ Timestamp r = VStr (lit "2024-01-01 10:00:00")
    /\ PlaylistName r = VStr (lit "Best of KOLLYWOOD 2024").
Proof.
  destruct (new_rows_carry_label_query_timestamp _ _ _ _ _ run_hits)
    as (qs & existing & new & Hq & He & Ht & _ & _ & Hall).
  injection Hq as <-. injection He as <-.
  destruct (Hall 0 Examples.q_hits (Examples.answer Examples.hits_items)
              Examples.hits_items
              (Examples.item "p3" "Best of KOLLYWOOD 2024" 40)
              (Examples.item_dict "p3" "Best of KOLLYWOOD 2024" 40) (VInt 40)
              (lit "Best of KOLLYWOOD 2024") eq_refl eq_refl eq_refl)
    as (r & Hr & Hrq & Hrl & Hrt & Hrn & _).
  - apply list_elem_of_lookup. by exists 2.
  - split; [reflexivity|]. split; [by eexists|]. split; reflexivity.
  - exists r. rewrite Ht. split; [apply elem_of_cons; by right|]. done.
Defined.

(** C5. The merge only appends.  When the retrieval is run twice for the
    same queries and both runs return, the second table is the first one
    followed by the rows of the second run, so no earlier row is removed
    or changed; and an item that matches the filter and is returned for
    the same query in both runs has a row from each run, at two different
    positions and with the same PlaylistID: the identifiers of the table
    are not free of duplicates. *)
Theorem rerun_duplicates_rows (w : World) (qs : list pyval)
    (s0 : State) (t1 : table) (s1 : State) (t2 : table) (s2 : State) :
  fetch_tamil_playlists w (VList qs) s0 = (Ok (Some t1), s1) ->
  fetch_tamil_playlists w (VList qs) s1 = (Ok (Some t2), s2) ->
  exists existing new1 new2,
    existing_table s0 = Ok existing
    /\ t1 = existing ++ new1 /\ t2 = t1 ++ new2
    /\ output_file s2 = Some (Ok t2)
    /\ forall i q ans1 ans2 its1 its2 it d total name,
         qs !! i = Some q ->
         sp_search w (api_calls s0 + i) q = Ok ans1 ->
         items_of ans1 = Ok its1 -> it ∈ its1 ->
         sp_search w (api_calls s1 + i) q = Ok ans2 ->
         items_of ans2 = Ok its2 -> it ∈ its2 ->
         matching_item w it d total name ->
         (exists j k r1 r2,
             j < k /\ t2 !! j = Some r1 /\ t2 !! k = Some r2
             /\ PlaylistID r1 = default VNone (d !! "id")
             /\ PlaylistID r2 = default VNone (d !! "id")
             /\ PlaylistName r1 = PlaylistName r2
             /\ Query r1 = q /\ Query r2 = q)
         /\ ~ NoDup (PlaylistID <$> t2).
Proof.
  intros H1 H2.
  apply fetch_returns_table in H1
    as (? & existing & new1 & sa & [= <-] & _ & He & Hl1 & _ & _ & -> & ->).
  apply fetch_returns_table in H2
    as (? & ? & new2 & sb & [= <-] & _ & [= <-] & Hl2 & _ & _ & -> & ->).
  apply for_each_query_Ok in Hl1 as [Hc1 ->].
  apply for_each_query_Ok in Hl2 as [Hc2 ->].
  simpl in Hc1, Hc2.
  exists existing, new1, new2.
  split; [done|]. split; [done|]. split; [done|]. split; [done|].
  intros i q ans1 ans2 its1 its2 it d total name
         Hq Hs1 Hi1 Hin1 Hs2 Hi2 Hin2 Hm.
  simpl in Hs2.
  set (r1 := record_of (clock w (clock_reads s0)) q d total).
  set (r2 := record_of (clock w (S (clock_reads s0))) q d total).
  assert (r1 ∈ new1) as Hr1.
  { eapply collect_complete; [exact Hc1|exact Hq|exact Hs1|].
    by exists its1, it, d, total, name. }
  assert (r2 ∈ new2) as Hr2.
  { eapply collect_complete; [exact Hc2|exact Hq|exact Hs2|].
    by exists its2, it, d, total, name. }
  apply list_elem_of_lookup in Hr1 as [j Hj].
  apply list_elem_of_lookup in Hr2 as [k Hk].
  pose proof (lookup_lt_Some _ _ _ Hj) as Hjlt.
  assert (((existing ++ new1) ++ new2) !! (List.length existing + j)
          = Some r1) as Hj'.
  { rewrite lookup_app_l by (rewrite length_app; lia).
    rewrite lookup_app_r by lia.
    replace (List.length existing + j - List.length existing) with j by lia.
    exact Hj. }
  assert (((existing ++ new1) ++ new2)
            !! (List.length (existing ++ new1) + k) = Some r2) as Hk'.
  { rewrite lookup_app_r by lia.
    replace (List.length (existing ++ new1) + k
             - List.length (existing ++ new1)) with k by lia.
    exact Hk. }
  split.
  - exists (List.length existing + j),
           (List.length (existing ++ new1) + k), r1, r2.
    split; [rewrite length_app; lia|]. done.
  - intros Hnd.
    assert (List.length existing + j = List.length (existing ++ new1) + k)
      as Heq; [|rewrite length_app in Heq; lia].
    apply (NoDup_lookup _ _ _ (default VNone (d !! "id")) Hnd);
      rewrite list_lookup_fmap.
    + by rewrite Hj'.
    + by rewrite Hk'.
Qed.

Lemma rerun_duplicates_rows_witness :
  exists j k r1 r2,
    j < k
    /\ (Examples.old_row :: Examples.hits_rows "2024-01-01 10:00:00"
          ++ Examples.hits_rows "2024-01-02 10:00:00") !! j = Some r1
    /\ (Examples.old_row :: Examples.hits_rows "2024-01-01 10:00:00"
          ++ Examples.hits_rows "2024-01-02 10:00:00") !! k = Some r2
    /\ PlaylistID r1 = VStr (lit "p1") /\ PlaylistID r2 = VStr (lit "p1").
Proof.
  destruct (rerun_duplicates_rows _ _ _ _ _ _ _
              run_hits run_hits_again)
    as (existing & new1 & new2 & _ & _ & _ & _ & Hdup).
  destruct (Hdup 0 Examples.q_hits (Examples.answer Examples.hits_items)
              (Examples.answer Examples.hits_items)
              Examples.hits_items Examples.hits_items
              (Examples.item "p1" "Tamil Hits" 50)
              (Examples.item_dict "p1" "Tamil Hits" 50) (VInt 50)
              (lit "Tamil Hits") eq_refl eq_refl eq_refl)
    as [(j & k & r1 & r2 & Hjk & Hj & Hk & Hp1 & Hp2 & _) _].
  - apply list_elem_of_here.
  - reflexivity.
  - reflexivity.
  - apply list_elem_of_here.
  - split; [reflexivity|]. split; [by eexists|]. split; reflexivity.
  - exists j, k, r1, r2. done.
Defined.

(** C10. The three fields of an item are not read alike.  A dict without
    ['name'] is given the empty name, which the filter rejects: no record,
    no error.  A dict without ['id'] whose name matches gets a record whose
    PlaylistID is [None].  A dict without ['tracks'], or whose ['tracks']
    has no ['total'], raises a [KeyError]; and a run whose answers contain
    such an item returns [None], with the result file left as it was. *)
Theorem field_extraction_is_not_uniform (w : World) (d : gmap string pyval) :
  (d !! "name" = None ->
   dict_get (VDict d) "name" (VStr []) = Ok (VStr [])
   /\ forall ts q acc tracks total,
        d !! "tracks" = Some tracks -> getitem tracks "total" = Ok total ->
        playlist_step w ts q acc (VDict d) = Ok acc)
  /\ (d !! "id" = None ->
      dict_get (VDict d) "id" VNone = Ok VNone
      /\ forall ts q acc tracks total name,
           d !! "tracks" = Some tracks -> getitem tracks "total" = Ok total ->
           d !! "name" = Some (VStr name) ->
           re_search (unicode_isalnum w) name = true ->
           exists r,
             playlist_step w ts q acc (VDict d) = Ok (acc ++ [r])
             /\ PlaylistID r = VNone /\ PlaylistName r = VStr name)
  /\ (lacks_track_count d ->
      (forall ts q acc,
          exists k, playlist_step w ts q acc (VDict d) = Raise (KeyError k))
      /\ forall qs s existing i q ans its,
           makedirs_raises w = None -> existing_table s = Ok existing ->
           qs !! i = Some q -> sp_search w (api_calls s + i) q = Ok ans ->
           items_of ans = Ok its -> VDict d ∈ its ->
           exists s',
             fetch_tamil_playlists w (VList qs) s = (Ok None, s')
             /\ output_file s' = output_file s).
Proof.
  split; [|split].
  - intros Hn. split; [simpl; by rewrite Hn|].
    intros ts q acc tracks total Ht Ho.
    apply playlist_step_Ok. exists d, tracks, total, [].
    rewrite Hn. done.
  - intros Hid. split; [simpl; by rewrite Hid|].
    intros ts q acc tracks total name Ht Ho Hn Hs.
    exists (record_of ts q d total). split; [|split].
    + apply playlist_step_Ok. exists d, tracks, total, name.
      rewrite Hn, Hs. done.
    + simpl. by rewrite Hid.
    + simpl. by rewrite Hn.
  - intros Hl. split.
    + intros ts q acc. by apply playlist_step_lacks_track_count.
    + intros qs s existing i q ans its Hm He Hq Hs Hi Hin.
      destruct (playlist_step_lacks_track_count
                  w (clock w (clock_reads s)) q [] d Hl) as [k Hk].
      destruct (collect_raises w (clock w (clock_reads s))
                  (api_calls (entered s)) qs i q ans its (VDict d)
                  (KeyError k) Hq Hs Hi Hin Hk) as [e' He'].
      destruct (for_each_query_Raise w _ _ _ _ He') as [s2 Hl2].
      destruct (fetch_caught w qs s existing e' Hm He
                  (before_write_in_loop w qs s existing e' s2 Hl2))
        as (s' & Hf & Hfile & _).
      by exists s'.
Qed.

Lemma field_extraction_is_not_uniform_witness :
  (exists k,
      playlist_step Examples.world (lit "2024-01-01 10:00:00")
        Examples.q_broken [Examples.old_row] Examples.item_without_tracks
      = Raise (KeyError k))
  /\ exists s',
       fetch_tamil_playlists Examples.world
         (VList [Examples.q_hits; Examples.q_broken]) Examples.with_old_table
       = (Ok None, s')
       /\ output_file s' = Some (Ok [Examples.old_row]).
Proof.
  destruct (field_extraction_is_not_uniform Examples.world
              (<["id" := VStr (lit "p9")]>
                 {["name" := VStr (lit "Tamil Mix")]}))
    as (_ & _ & Hl).
  destruct Hl as [Hstep Hrun]; [by left|]. split.
  - apply Hstep.
  - apply (Hrun [Examples.q_hits; Examples.q_broken] Examples.with_old_table
             [Examples.old_row] 1 Examples.q_broken
             (Examples.answer [Examples.item "p4" "Madras Days" 21;
                               Examples.item_without_tracks])
             [Examples.item "p4" "Madras Days" 21;
              Examples.item_without_tracks]);
      try reflexivity.
    apply list_elem_of_further, list_elem_of_here.
Defined.

(** ** Further properties: the entry routine *)

(** The routine, case by case. *)
Lemma run_cases (w : World) (s : State) :
  run_tamil_playlist_scraper w s
  = match queries_file s with
    | None =>
        (Ok tt,
         add_message
           (MsgErrorDetail
              (FileNotFoundError (lit "Queries.xlsx not found in " ++ cwd w)))
           (add_message MsgUnexpected s))
    | Some (Raise e) =>
        (Ok tt, add_message (MsgErrorDetail e) (add_message MsgUnexpected s))
    | Some (Ok df) =>
        match df !! "Queries" with
        | None =>
            (Ok tt,
             add_message
               (MsgErrorDetail
                  (KeyError
                     "The Excel file must have a column named 'Queries'."))
               (add_message MsgUnexpected s))
        | Some column =>
            match fetch_tamil_playlists w (VList (dropna column))
                    (add_message (MsgStarting (List.length (dropna column))) s)
            with
            | (Ok (Some _), s') => (Ok tt, add_message MsgCompleted s')
            | (Ok None, s') => (Ok tt, add_message MsgNoPlaylists s')
            | (Raise e, s') =>
                (Ok tt,
                 add_message (MsgErrorDetail e) (add_message MsgUnexpected s'))
            end
        end
    end.
Proof.
  unfold run_tamil_playlist_scraper, try_except, bind at 1, get.
  destruct (queries_file s) as [[df|e]|]; try reflexivity.
  unfold bind at 1, pure.
  destruct (df !! "Queries") as [column|]; [|reflexivity].
  cbv zeta. unfold bind at 1, print at 1, modify at 1.
  unfold bind at 1.
  destruct (fetch_tamil_playlists w (VList (dropna column)) _)
    as [[[t|]|e] s']; reflexivity.
Qed.

(** X1. A workbook without a column named [Queries] makes the routine
    print its error marker and the [KeyError] of line 128 and return
    normally; nothing is searched and no file or directory is touched. *)
Theorem missing_queries_column (w : World) (s : State) (df : sheet) :
  queries_file s = Some (Ok df) -> df !! "Queries" = None ->
  exists s',
    run_tamil_playlist_scraper w s = (Ok tt, s')
    /\ console s'
       = console s
         ++ [MsgUnexpected;
             MsgErrorDetail
               (KeyError "The Excel file must have a column named 'Queries'.")]
    /\ output_file s' = output_file s /\ output_dir s' = output_dir s
    /\ api_calls s' = api_calls s /\ clock_reads s' = clock_reads s.
Proof.
  intros Hf Hc. eexists. split.
  - rewrite run_cases, Hf, Hc. reflexivity.
  - simpl. by rewrite <- app_assoc.
Qed.

(** X2. A [Queries.xlsx] that exists but on which [pd.read_excel] raises
    is reported the same way, with the exception pandas raised; nothing
    is searched and no file or directory is touched. *)
Theorem unreadable_queries_file (w : World) (s : State) (e : exn) :
  queries_file s = Some (Raise e) ->
  exists s',
    run_tamil_playlist_scraper w s = (Ok tt, s')
    /\ console s' = console s ++ [MsgUnexpected; MsgErrorDetail e]
    /\ output_file s' = output_file s /\ output_dir s' = output_dir s
    /\ api_calls s' = api_calls s /\ clock_reads s' = clock_reads s.
Proof.
  intros Hf. eexists. split.
  - rewrite run_cases, Hf. reflexivity.
  - simpl. by rewrite <- app_assoc.
Qed.

Lemma missing_queries_column_witness :
  exists s',
    run_tamil_playlist_scraper Examples.world MoreExamples.no_column
    = (Ok tt, s')
    /\ console s'
       = [MsgUnexpected;
          MsgErrorDetail
            (KeyError "The Excel file must have a column named 'Queries'.")]
    /\ output_file s' = Some (Ok [Examples.old_row]).
Proof.
  destruct (missing_queries_column Examples.world MoreExamples.no_column
              {["Phrases" := [Some Examples.q_hits]]} eq_refl eq_refl)
    as (s' & Hr & Hc & Hf & _).
  exists s'. split; [exact Hr|]. split; [exact Hc|exact Hf].
Defined.

Lemma unreadable_queries_file_witness :
  exists s',
    run_tamil_playlist_scraper Examples.world MoreExamples.unreadable_queries
    = (Ok tt, s')
    /\ console s'
       = [MsgUnexpected; MsgErrorDetail (External "File is not a zip file")]
    /\ output_file s' = Some (Ok [Examples.old_row]).
Proof.
  destruct (unreadable_queries_file Examples.world
              MoreExamples.unreadable_queries
              (External "File is not a zip file") eq_refl)
    as (s' & Hr & Hc & Hf & _).
  exists s'. split; [exact Hr|]. split; [exact Hc|exact Hf].
Defined.

(** X3. With a readable workbook the routine hands the non-empty cells of
    the [Queries] column, in their order, to [fetch_tamil_playlists]; when
    the directory, the loop, the merge and the write all succeed it ends
    with the merged table on disk and has printed, in this order, the
    number of queries, the saved message with the run's timestamp, and the
    completion message. *)
Theorem entry_run_saves_table (w : World) (s : State) (df : sheet)
    (column : list (option pyval)) (existing new : table) (s2 : State) :
  queries_file s = Some (Ok df) -> df !! "Queries" = Some column ->
  makedirs_raises w = None -> existing_table s = Ok existing ->
  for_each_query w (clock w (clock_reads s)) (dropna column) []
    (entered (add_message (MsgStarting (List.length (dropna column))) s))
  = (Ok new, s2) ->
  concat_raises w existing new = None ->
  to_excel_raises w (existing ++ new) = None ->
  exists s',
    run_tamil_playlist_scraper w s = (Ok tt, s')
    /\ output_file s' = Some (Ok (existing ++ new))
    /\ console s'
       = console s
         ++ [MsgStarting (List.length (dropna column));
             MsgSaved (clock w (clock_reads s)); MsgCompleted].
Proof.
  intros Hf Hc Hm He Hl Hcc Hx.
  rewrite run_cases, Hf, Hc.
  rewrite (fetch_success w (dropna column)
             (add_message (MsgStarting (List.length (dropna column))) s)
             existing new s2 Hm He Hl Hcc Hx).
  eexists. split; [reflexivity|]. split; [reflexivity|].
  apply for_each_query_files in Hl as (_ & _ & Hcons & _).
  simpl. rewrite Hcons. simpl. by rewrite <- !app_assoc.
Qed.

Lemma entry_run_saves_table_witness :
  exists s',
    run_tamil_playlist_scraper Examples.world MoreExamples.queries_and_table
    = (Ok tt, s')
    /\ output_file s'
       = Some (Ok ([Examples.old_row]
                   ++ Examples.hits_rows "2024-01-01 10:00:00"))
    /\ console s'
       = [MsgStarting 2; MsgSaved (lit "2024-01-01 10:00:00"); MsgCompleted].
Proof.
  eapply (entry_run_saves_table Examples.world MoreExamples.queries_and_table
            {["Queries" := [Some Examples.q_hits; None;
                            Some MoreExamples.q_jazz]]}
            [Some Examples.q_hits; None; Some MoreExamples.q_jazz]
            [Examples.old_row] (Examples.hits_rows "2024-01-01 10:00:00"));
    reflexivity.
Defined.

(** X4. When the retrieval meets an exception inside its [try] block, the
    routine still returns normally: after the number of queries it has
    printed the retrieval error and then the warning of line 138.  When
    the exception was raised before the write, in the loop or in the
    merge, the result file is what it was. *)
Theorem entry_run_reports_sentinel (w : World) (s : State) (df : sheet)
    (column : list (option pyval)) (existing : table) (e : exn) :
  queries_file s = Some (Ok df) -> df !! "Queries" = Some column ->
  makedirs_raises w = None -> existing_table s = Ok existing ->
  raised_in_try w (dropna column)
    (add_message (MsgStarting (List.length (dropna column))) s) existing e ->
  exists s',
    run_tamil_playlist_scraper w s = (Ok tt, s')
    /\ console s'
       = console s
         ++ [MsgStarting (List.length (dropna column));
             MsgRetrievalError e; MsgNoPlaylists]
    /\ (raised_before_write w (dropna column)
          (add_message (MsgStarting (List.length (dropna column))) s)
          existing e ->
        output_file s' = output_file s).
Proof.
  intros Hf Hc Hm He Hr.
  destruct (fetch_caught_any w (dropna column)
              (add_message (MsgStarting (List.length (dropna column))) s)
              existing e Hm He Hr)
    as (s1 & Hrun & Hcons).
  rewrite run_cases, Hf, Hc, Hrun.
  eexists. split; [reflexivity|]. split.
  - simpl. rewrite Hcons. simpl. by rewrite <- !app_assoc.
  - intros Hb.
    destruct (fetch_caught w (dropna column)
                (add_message (MsgStarting (List.length (dropna column))) s)
                existing e Hm He Hb)
      as (s1' & Hrun' & Hfile & _).
    rewrite Hrun in Hrun'. injection Hrun' as <-. exact Hfile.
Qed.

Lemma entry_run_reports_sentinel_witness :
  exists s',
    run_tamil_playlist_scraper Examples.world MoreExamples.queries_then_down
    = (Ok tt, s')
    /\ output_file s' = Some (Ok [Examples.old_row])
    /\ console s'
       = [MsgStarting 3; MsgRetrievalError (External "HTTP 503");
          MsgNoPlaylists].
Proof.
  pose (qs := [Examples.q_hits; Examples.q_down; MoreExamples.q_jazz]).
  pose (s0 := add_message (MsgStarting 3) MoreExamples.queries_then_down).
  assert (for_each_query Examples.world
            (clock Examples.world (clock_reads s0)) qs [] (entered s0)
          = (Raise (External "HTTP 503"), advance_api 2 (entered s0))) as Hl
    by (vm_compute; reflexivity).
  destruct (entry_run_reports_sentinel Examples.world
              MoreExamples.queries_then_down
              {["Queries" := [Some Examples.q_hits; Some Examples.q_down;
                              Some MoreExamples.q_jazz]]}
              [Some Examples.q_hits; Some Examples.q_down;
               Some MoreExamples.q_jazz]
              [Examples.old_row] (External "HTTP 503")
              eq_refl eq_refl eq_refl eq_refl
              (raised_in_loop _ _ _ _ _ _ Hl))
    as (s' & Hrun & Hcons & Hfile).
  exists s'. split; [exact Hrun|]. split; [|exact Hcons].
  apply Hfile. exact (before_write_in_loop _ _ _ _ _ _ Hl).
Defined.

(** X5. An exception that leaves [fetch_tamil_playlists] (the directory
    cannot be created, or the existing result file cannot be read) is
    caught by the routine's own handler: it is printed after the error
    marker, the routine returns normally, nothing was searched and the
    result file is what it was. *)
Theorem entry_run_catches_escaped (w : World) (s : State) (df : sheet)
    (column : list (option pyval)) (e : exn) :
  queries_file s = Some (Ok df) -> df !! "Queries" = Some column ->
  makedirs_raises w = Some e
  \/ makedirs_raises w = None /\ existing_table s = Raise e ->
  exists s',
    run_tamil_playlist_scraper w s = (Ok tt, s')
    /\ output_file s' = output_file s /\ api_calls s' = api_calls s
    /\ console s'
       = console s
         ++ [MsgStarting (List.length (dropna column));
             MsgUnexpected; MsgErrorDetail e].
Proof.
  intros Hf Hc H. rewrite run_cases, Hf, Hc, fetch_list_run.
  destruct H as [Hm|[Hm He]]; rewrite Hm.
  - eexists. split; [reflexivity|]. simpl. by rewrite <- !app_assoc.
  - change (existing_table (add_message
              (MsgStarting (List.length (dropna column))) s))
      with (existing_table s).
    rewrite He. eexists. split; [reflexivity|]. simpl.
    by rewrite <- !app_assoc.
Qed.

Lemma entry_run_catches_escaped_witness :
  exists s',
    run_tamil_playlist_scraper MoreExamples.no_directory_world
      MoreExamples.queries_and_table = (Ok tt, s')
    /\ output_file s' = Some (Ok [Examples.old_row])
    /\ api_calls s' = 0
    /\ console s'
       = [MsgStarting 2; MsgUnexpected;
          MsgErrorDetail (External "Permission denied")].
Proof.
  apply (entry_run_catches_escaped MoreExamples.no_directory_world
           MoreExamples.queries_and_table
           {["Queries" := [Some Examples.q_hits; None;
                           Some MoreExamples.q_jazz]]}
           [Some Examples.q_hits; None; Some MoreExamples.q_jazz]
           (External "Permission denied"));
    [reflexivity|reflexivity|by left].
Defined.

(** ** Further properties: what a call of the retrieval changes *)

(** Every outcome of a call on a list, with the state it leaves. *)
Lemma fetch_list_cases (w : World) (qs : list pyval) (s : State) :
  let ts := clock w (clock_reads s) in
  let s2 := advance_api (calls w ts (api_calls s) qs) (entered s) in
  fetch_tamil_playlists w (VList qs) s
  = match makedirs_raises w with
    | Some e => (Raise e, tick_clock s)
    | None =>
        match existing_table s with
        | Raise e => (Raise e, entered s)
        | Ok existing =>
            match collect w ts (api_calls s) qs with
            | Raise e => (Ok None, add_message (MsgRetrievalError e) s2)
            | Ok new =>
                match concat_raises w existing new with
                | Some e => (Ok None, add_message (MsgRetrievalError e) s2)
                | None =>
                    match to_excel_raises w (existing ++ new) with
                    | Some e =>
                        (Ok None,
                         add_message (MsgRetrievalError e)
                           (set_output_file
                              (to_excel_leaves w (existing ++ new)
                                 (output_file s)) s2))
                    | None =>
                        (Ok (Some (existing ++ new)),
                         add_message (MsgSaved ts)
                           (set_output_file (Some (Ok (existing ++ new))) s2))
                    end
                end
            end
        end
    end.
Proof.
  intros ts s2. rewrite fetch_list_run.
  destruct (makedirs_raises w); [done|].
  destruct (existing_table s) as [existing|]; [|done].
  rewrite retrieve_and_save_run, for_each_query_run. simpl.
  fold ts. fold s2.
  destruct (collect w ts (api_calls s) qs) as [new|]; [|done]. simpl.
  destruct (concat_raises w existing new); [done|].
  by destruct (to_excel_raises w (existing ++ new)).
Qed.

(** X6. Exactly three exceptions leave [fetch_tamil_playlists]: the
    [ValueError] for an argument that is not a list (nothing has happened
    yet), what [os.makedirs] raises (only the clock has been read), and
    what [pd.read_excel] raises on the existing result file (the directory
    exists by then).  In none of these cases has a search been made or the
    result file been changed. *)
Theorem fetch_raises_exactly_when (w : World) (queries : pyval)
    (s : State) (e : exn) (s' : State) :
  fetch_tamil_playlists w queries s = (Raise e, s') <->
  is_list queries = false
  /\ e = ValueError "Queries must be provided as a list." /\ s' = s
  \/ is_list queries = true /\ makedirs_raises w = Some e
     /\ s' = tick_clock s
  \/ is_list queries = true /\ makedirs_raises w = None
     /\ existing_table s = Raise e /\ s' = entered s.
Proof.
  destruct queries as [| | |qs| |];
    try (split;
         [intros [= <- <-]; left; done
         |intros [(_ & -> & ->)|[(H & _)|(H & _)]]; [done|done|done]]).
  rewrite fetch_list_cases. cbv zeta. split.
  - intros H. right.
    destruct (makedirs_raises w) as [e0|].
    { injection H as <- <-. by left. }
    destruct (existing_table s) as [existing|e0].
    + destruct (collect w _ _ qs) as [new|]; [|done].
      destruct (concat_raises w existing new); [done|].
      by destruct (to_excel_raises w (existing ++ new)).
    + injection H as <- <-. by right.
  - intros [(H & _)|[(_ & -> & ->)|(_ & -> & -> & ->)]]; done.
Qed.

Lemma fetch_raises_exactly_when_witness :
  fetch_tamil_playlists Examples.world (VList [Examples.q_hits])
    MoreExamples.corrupt_table
  = (Raise (External "File is not a zip file"),
     entered MoreExamples.corrupt_table)
  /\ api_calls (entered MoreExamples.corrupt_table) = 0
  /\ output_file (entered MoreExamples.corrupt_table)
     = Some (Raise (External "File is not a zip file")).
Proof.
  split; [|split; reflexivity].
  apply fetch_raises_exactly_when. right. right. done.
Defined.

(** X7. Whatever the outcome of a call, the workbook of queries is not
    touched, the console has grown by at most one message and the clock
    was read at most once; and the result file is touched by the write of
    line 101 only: a call after which the file is not what it was has
    been given a list, has created the directory, loaded the existing
    table and come through the loop and the merge without an exception. *)
Theorem fetch_touches_file_only_in_write (w : World) (queries : pyval)
    (s : State) (r : result (option table)) (s' : State) :
  fetch_tamil_playlists w queries s = (r, s') ->
  queries_file s' = queries_file s
  /\ (exists msgs, console s' = console s ++ msgs /\ List.length msgs <= 1)
  /\ clock_reads s <= clock_reads s' <= S (clock_reads s)
  /\ (output_file s' = output_file s
      \/ exists qs existing new s2,
           queries = VList qs /\ makedirs_raises w = None
           /\ existing_table s = Ok existing
           /\ for_each_query w (clock w (clock_reads s)) qs [] (entered s)
              = (Ok new, s2)
           /\ concat_raises w existing new = None).
Proof.
  destruct queries as [| | |qs| |];
    try (intros [= <- <-]; repeat split; try lia;
         [exists []; by rewrite app_nil_r; split; [|simpl; lia] | by left]).
  rewrite fetch_list_run.
  destruct (makedirs_raises w) as [e0|] eqn:Hm.
  { intros [= <- <-]. simpl. repeat split; try lia; [|by left].
    exists []. rewrite app_nil_r. split; [done|simpl; lia]. }
  destruct (existing_table s) as [existing|e0] eqn:He.
  - rewrite retrieve_and_save_run.
    destruct (for_each_query w _ qs [] (entered s)) as [[new|e1] s2] eqn:Hl.
    + pose proof (for_each_query_files w _ _ _ _ _ _ Hl)
        as (Hf & _ & Hcons & Hclock & Hq).
      destruct (concat_raises w existing new) as [e1|] eqn:Hc.
      { intros [= <- <-]. simpl. rewrite Hq, Hcons, Hclock, Hf. simpl.
        repeat split; try lia; [|by left].
        eexists [_]. split; [done|simpl; lia]. }
      destruct (to_excel_raises w (existing ++ new)) as [e1|];
        intros [= <- <-]; simpl; rewrite Hq, Hcons, Hclock; simpl;
        (repeat split; try lia;
         [|right; by exists qs, existing, new, s2]);
        eexists [_]; (split; [done|simpl; lia]).
    + pose proof (for_each_query_files w _ _ _ _ _ _ Hl)
        as (Hf & _ & Hcons & Hclock & Hq).
      intros [= <- <-]. simpl. rewrite Hq, Hcons, Hclock, Hf. simpl.
      repeat split; try lia; [|by left].
      eexists [_]. split; [done|simpl; lia].
  - intros [= <- <-]. simpl. repeat split; try lia; [|by left].
    exists []. rewrite app_nil_r. split; [done|simpl; lia].
Qed.

(** The file changes in a run that saves its table, and stays when the
    loop raises. *)
Lemma fetch_touches_file_only_in_write_witness :
  queries_file Examples.after_hits = queries_file Examples.with_old_table
  /\ exists qs existing new s2,
       VList [Examples.q_hits] = VList qs
       /\ makedirs_raises Examples.world = None
       /\ existing_table Examples.with_old_table = Ok existing
       /\ for_each_query Examples.world
            (clock Examples.world (clock_reads Examples.with_old_table))
            qs [] (entered Examples.with_old_table) = (Ok new, s2)
       /\ concat_raises Examples.world existing new = None.
Proof.
  destruct (fetch_touches_file_only_in_write _ _ _ _ _ run_hits)
    as (Hq & _ & _ & [Hf|Hreached]).
  - discriminate Hf.
  - split; [exact Hq|exact Hreached].
Defined.

(** X8. A call searches each query at most once: it makes at most as many
    searches as there are queries, and exactly that many when it returns
    a table. *)
Theorem fetch_searches_each_query_once (w : World) (qs : list pyval)
    (s : State) (r : result (option table)) (s' : State) :
  fetch_tamil_playlists w (VList qs) s = (r, s') ->
  api_calls s <= api_calls s' <= api_calls s + List.length qs
  /\ (forall t, r = Ok (Some t) -> api_calls s' = api_calls s + List.length qs).
Proof.
  rewrite fetch_list_cases. cbv zeta.
  pose proof (calls_le w (clock w (clock_reads s)) (api_calls s) qs) as Hle.
  destruct (makedirs_raises w) as [e0|].
  { intros [= <- <-]. simpl. split; [lia|done]. }
  destruct (existing_table s) as [existing|e0].
  - destruct (collect w _ _ qs) as [new|e1] eqn:Hc.
    + apply calls_collect_Ok in Hc.
      destruct (concat_raises w existing new) as [e1|].
      { intros [= <- <-]. simpl. split; [lia|done]. }
      destruct (to_excel_raises w (existing ++ new)) as [e1|];
        intros [= <- <-]; simpl; (split; [lia|]); [done|].
      intros _ _. lia.
    + intros [= <- <-]. simpl. split; [lia|done].
  - intros [= <- <-]. simpl. split; [lia|done].
Qed.

Lemma fetch_searches_each_query_once_witness :
  api_calls Examples.with_old_table <= api_calls Examples.after_hits
  <= api_calls Examples.with_old_table + 1.
Proof.
  exact (proj1 (fetch_searches_each_query_once _ _ _ _ _ run_hits)).
Defined.

(** ** Further properties: the loop over the queries *)

Section MoreLoopFacts.

Variable w : World.

Lemma collect_app ts n qs1 qs2 :
  collect w ts n (qs1 ++ qs2)
  = (a <- collect w ts n qs1 ;;
     b <- collect w ts (n + List.length qs1) qs2 ;;
     Ok (a ++ b))%res.
Proof.
  revert n. induction qs1 as [|q qs1 IH]; intros n; simpl.
  - rewrite Nat.add_0_r. by destruct (collect w ts n qs2).
  - destruct (sp_search w n q) as [ans|]; [|done]. simpl.
    destruct (playlists_of w ts q [] ans) as [here|]; [|done]. simpl.
    rewrite IH, Nat.add_succ_r. simpl.
    destruct (collect w ts (S n) qs1) as [a|]; [|done]. simpl.
    destruct (collect w ts (S (n + List.length qs1)) qs2); [|done]. simpl.
    by rewrite <- app_assoc.
Qed.

Lemma calls_app ts n qs1 qs2 a :
  collect w ts n qs1 = Ok a ->
  calls w ts n (qs1 ++ qs2)
  = List.length qs1 + calls w ts (n + List.length qs1) qs2.
Proof.
  revert n a. induction qs1 as [|q qs1 IH]; intros n a; simpl.
  - intros _. by rewrite Nat.add_0_r.
  - destruct (sp_search w n q) as [ans|]; [|done]. simpl.
    destruct (playlists_of w ts q [] ans) as [here|]; [|done]. simpl.
    destruct (collect w ts (S n) qs1) as [a'|] eqn:E; [|done].
    intros _. rewrite (IH (S n) a' E), Nat.add_succ_r. done.
Qed.

(** The loop is a filter followed by a map. *)
Lemma inner_loop_rows ts q its new :
  for_each (playlist_step w ts q) [] its = Ok new ->
  new = rows_of_items w ts q its.
Proof.
  revert new. induction its as [|it its IH]; intros new.
  - by intros [= <-].
  - rewrite for_each_step_cons.
    destruct (playlist_step w ts q [] it) as [here|] eqn:Eh; [|done]. simpl.
    destruct (for_each (playlist_step w ts q) [] its) as [more|]; [|done].
    simpl. intros [= <-]. rewrite (IH more eq_refl).
    apply playlist_step_Ok in Eh
      as (d & tracks & total & name & -> & Ht & Ho & Hn & ->).
    unfold rows_of_items. simpl. rewrite Hn.
    destruct (re_search (unicode_isalnum w) name); [|done].
    simpl. by rewrite Ht, Ho.
Qed.

Lemma collect_rows ts n qs new :
  collect w ts n qs = Ok new -> new = expected_rows w ts n qs.
Proof.
  revert n new. induction qs as [|q rest IH]; intros n new; simpl.
  - by intros [= <-].
  - destruct (sp_search w n q) as [ans|]; [|done]. simpl.
    unfold playlists_of.
    destruct (items_of ans) as [its|]; [|done]. simpl.
    destruct (for_each (playlist_step w ts q) [] its) as [here|] eqn:Eh;
      [|done].
    simpl. destruct (collect w ts (S n) rest) as [more|] eqn:Em; [|done].
    simpl. intros [= <-].
    by rewrite (inner_loop_rows _ _ _ _ Eh), (IH _ _ Em).
Qed.

(** An answer whose items cannot be walked through stops the loop. *)
Lemma collect_raises_answer ts n qs i q ans e :
  qs !! i = Some q -> sp_search w (n + i) q = Ok ans ->
  items_of ans = Raise e ->
  exists e', collect w ts n qs = Raise e'.
Proof.
  revert n i. induction qs as [|q' rest IH]; intros n i Hq Hs Hi.
  - by rewrite lookup_nil in Hq.
  - simpl. destruct i as [|i].
    + injection Hq as ->. rewrite Nat.add_0_r in Hs. rewrite Hs. simpl.
      unfold playlists_of. rewrite Hi. by exists e.
    + destruct (sp_search w n q') as [ans'|e0]; [|by exists e0]. simpl.
      destruct (playlists_of w ts q' [] ans') as [here|e0]; [|by exists e0].
      simpl. rewrite Nat.add_succ_r in Hs.
      destruct (IH (S n) i Hq Hs Hi) as [e' ->]. by exists e'.
Qed.

(** A loop that raises makes the call return the sentinel. *)
Lemma fetch_loop_raises qs s existing e :
  makedirs_raises w = None -> existing_table s = Ok existing ->
  collect w (clock w (clock_reads s)) (api_calls s) qs = Raise e ->
  exists s',
    fetch_tamil_playlists w (VList qs) s = (Ok None, s')
    /\ output_file s' = output_file s
    /\ console s' = console s ++ [MsgRetrievalError e].
Proof.
  intros Hm He Hc.
  destruct (for_each_query_Raise w _ qs (entered s) e Hc) as [s2 Hl].
  exact (fetch_caught w qs s existing e Hm He
           (before_write_in_loop w qs s existing e s2 Hl)).
Qed.

Lemma matching_item_passes it d total name :
  matching_item w it d total name -> passes w it = true.
Proof. intros (-> & _ & Hn & Hs). simpl. by rewrite Hn. Qed.

End MoreLoopFacts.

(** X9. A search that raises ends the run at once.  When the queries
    before it went through and the search for the next one raises [e],
    the call returns [None] having printed exactly [e], the queries after
    it are never searched (the count of searches stops there), and the
    result file is what it was. *)
Theorem search_failure_stops_the_run (w : World) (qs1 : list pyval)
    (q : pyval) (qs2 : list pyval) (s : State) (existing acc : table)
    (s1 : State) (e : exn) :
  makedirs_raises w = None -> existing_table s = Ok existing ->
  for_each_query w (clock w (clock_reads s)) qs1 [] (entered s)
  = (Ok acc, s1) ->
  sp_search w (api_calls s + List.length qs1) q = Raise e ->
  exists s',
    fetch_tamil_playlists w (VList (qs1 ++ q :: qs2)) s = (Ok None, s')
    /\ api_calls s' = api_calls s + List.length qs1 + 1
    /\ console s' = console s ++ [MsgRetrievalError e]
    /\ output_file s' = output_file s.
Proof.
  intros Hm He Hl Hs. apply for_each_query_Ok in Hl as [Hc _].
  simpl in Hc. rewrite fetch_list_cases. cbv zeta. rewrite Hm, He.
  rewrite collect_app, Hc. simpl. rewrite Hs. simpl.
  rewrite (calls_app w _ _ qs1 (q :: qs2) acc Hc). simpl. rewrite Hs. simpl.
  eexists. split; [reflexivity|]. simpl. repeat split. lia.
Qed.

Lemma search_failure_stops_the_run_witness :
  exists s',
    fetch_tamil_playlists Examples.world
      (VList ([Examples.q_hits] ++ Examples.q_down :: [MoreExamples.q_jazz]))
      Examples.with_old_table = (Ok None, s')
    /\ api_calls s' = 2
    /\ console s' = [MsgRetrievalError (External "HTTP 503")]
    /\ output_file s' = Some (Ok [Examples.old_row]).
Proof.
  eapply (search_failure_stops_the_run Examples.world [Examples.q_hits]
            Examples.q_down [MoreExamples.q_jazz] Examples.with_old_table
            [Examples.old_row]);
    reflexivity.
Defined.

(** X10. The rows a run adds are exactly the rows of the items that pass
    the filter, query by query in the order of the list and, within one
    answer, in the order of its items: the returned table is the existing
    one followed by [expected_rows], the filter-then-map reading of the
    two loops. *)
Theorem new_rows_are_the_filtered_items (w : World) (queries : pyval)
    (s : State) (t : table) (s' : State) :
  fetch_tamil_playlists w queries s = (Ok (Some t), s') ->
  exists qs existing,
    queries = VList qs /\ existing_table s = Ok existing
    /\ t = existing
           ++ expected_rows w (clock w (clock_reads s)) (api_calls s) qs.
Proof.
  intros H.
  apply fetch_returns_table in H
    as (qs & existing & new & s2 & -> & _ & He & Hl & _ & _ & -> & _).
  apply for_each_query_Ok in Hl as [Hc _]. simpl in Hc.
  exists qs, existing. by rewrite (collect_rows w _ _ _ _ Hc).
Qed.

Lemma new_rows_are_the_filtered_items_witness :
  Examples.old_row :: Examples.hits_rows "2024-01-01 10:00:00"
  = [Examples.old_row]
    ++ expected_rows Examples.world (lit "2024-01-01 10:00:00") 0
         [Examples.q_hits].
Proof.
  destruct (new_rows_are_the_filtered_items _ _ _ _ _ run_hits)
    as (qs & existing & [= <-] & [= <-] & Ht).
  exact Ht.
Defined.

(** X11. A run in which no item of any answer passes the filter adds no
    row: the table it returns and writes is the existing one. *)
Theorem no_passing_item_no_new_row (w : World) (qs : list pyval)
    (s : State) (t : table) (s' : State) :
  fetch_tamil_playlists w (VList qs) s = (Ok (Some t), s') ->
  (forall i q ans its it,
      qs !! i = Some q -> sp_search w (api_calls s + i) q = Ok ans ->
      items_of ans = Ok its -> it ∈ its -> passes w it = false) ->
  existing_table s = Ok t /\ output_file s' = Some (Ok t).
Proof.
  intros H Hno.
  apply fetch_returns_table in H
    as (? & existing & new & s2 & [= <-] & _ & He & Hl & _ & _ & -> & ->).
  apply for_each_query_Ok in Hl as [Hc _]. simpl in Hc.
  apply collect_sound in Hc. destruct new as [|r new].
  - rewrite app_nil_r. done.
  - apply Forall_cons in Hc
      as [(i & q & ans & Hq & Hs & its & it & d & total & name
           & Hi & Hin & Hm & _) _].
    apply matching_item_passes in Hm.
    rewrite (Hno i q ans its it Hq Hs Hi Hin) in Hm. done.
Qed.

(** Two items are looked at and both fail the filter: "tamiland" has a
    letter after the keyword, "tamil_hits" an underscore. *)
Lemma no_passing_item_no_new_row_witness :
  exists s',
    fetch_tamil_playlists MoreExamples.odd_world (VList [MoreExamples.q_near])
      Examples.with_old_table = (Ok (Some [Examples.old_row]), s')
    /\ output_file s' = Some (Ok [Examples.old_row])
    /\ passes MoreExamples.odd_world (Examples.item "p7" "tamiland" 8) = false
    /\ passes MoreExamples.odd_world (Examples.item "p8" "tamil_hits" 5)
       = false.
Proof.
  eexists. split; [vm_compute; reflexivity|].
  split; [|split; reflexivity].
  eapply (no_passing_item_no_new_row MoreExamples.odd_world
            [MoreExamples.q_near] Examples.with_old_table).
  - vm_compute. reflexivity.
  - intros [|i] q ans its it Hq Hs Hi Hin; [|done].
    injection Hq as <-. injection Hs as <-. injection Hi as <-.
    unfold MoreExamples.near_items in Hin.
    apply elem_of_cons in Hin as [->|Hin]; [reflexivity|].
    apply list_elem_of_singleton in Hin as ->. reflexivity.
Defined.

(** ** Further properties: answers that are not well formed *)

(** X12. The default of [playlist.get('name', '')] covers a missing key
    only.  An item whose name is present but is not a string (a JSON null,
    say) gets past the extraction of its fields and then raises
    [TypeError] in [re.search]; a run whose answers contain such an item
    returns [None] and leaves the result file as it was. *)
Theorem name_that_is_not_a_string_raises (w : World)
    (d : gmap string pyval) (v tracks total : pyval) :
  d !! "name" = Some v -> (forall name, v <> VStr name) ->
  d !! "tracks" = Some tracks -> getitem tracks "total" = Ok total ->
  (forall ts q acc, playlist_step w ts q acc (VDict d) = Raise TypeError)
  /\ forall qs s existing i q ans its,
       makedirs_raises w = None -> existing_table s = Ok existing ->
       qs !! i = Some q -> sp_search w (api_calls s + i) q = Ok ans ->
       items_of ans = Ok its -> VDict d ∈ its ->
       exists s',
         fetch_tamil_playlists w (VList qs) s = (Ok None, s')
         /\ output_file s' = output_file s.
Proof.
  intros Hn Hv Ht Ho.
  assert (forall ts q acc,
             playlist_step w ts q acc (VDict d) = Raise TypeError) as Hstep.
  { intros ts q acc. unfold playlist_step. simpl. rewrite Hn, Ht. simpl.
    rewrite Ho. simpl. destruct v; try done. by destruct (Hv s). }
  split; [exact Hstep|].
  intros qs s existing i q ans its Hm He Hq Hs Hi Hin.
  destruct (collect_raises w (clock w (clock_reads s)) (api_calls s) qs i q
              ans its (VDict d) TypeError Hq Hs Hi Hin (Hstep _ _ _))
    as [e' He'].
  destruct (fetch_loop_raises w qs s existing e' Hm He He')
    as (s' & Hf & Hfile & _).
  by exists s'.
Qed.

Lemma name_that_is_not_a_string_raises_witness :
  exists s',
    fetch_tamil_playlists MoreExamples.odd_world
      (VList [Examples.q_hits; MoreExamples.q_null]) Examples.with_old_table
    = (Ok None, s')
    /\ output_file s' = Some (Ok [Examples.old_row]).
Proof.
  destruct (name_that_is_not_a_string_raises MoreExamples.odd_world
              (<["id" := VStr (lit "p5")]>
                 (<["name" := VNone]>
                    {["tracks" := VDict {["total" := VInt 3]}]}))
              VNone (VDict {["total" := VInt 3]}) (VInt 3))
    as [_ Hrun]; try reflexivity; [done|].
  apply (Hrun [Examples.q_hits; MoreExamples.q_null] Examples.with_old_table
           [Examples.old_row] 1 MoreExamples.q_null
           (Examples.answer [MoreExamples.item_null_name])
           [MoreExamples.item_null_name]);
    try reflexivity.
  apply list_elem_of_here.
Defined.

(** X13. An item that is not a dict (a null among the items, say) has no
    [get]: the body of the loop raises [AttributeError] at its first line,
    and a run whose answers contain such an item returns [None] and leaves
    the result file as it was, whatever the items before it were. *)
Theorem item_that_is_not_a_dict_raises (w : World) (it : pyval) :
  (forall d, it <> VDict d) ->
  (forall ts q acc, playlist_step w ts q acc it = Raise AttributeError)
  /\ forall qs s existing i q ans its,
       makedirs_raises w = None -> existing_table s = Ok existing ->
       qs !! i = Some q -> sp_search w (api_calls s + i) q = Ok ans ->
       items_of ans = Ok its -> it ∈ its ->
       exists s',
         fetch_tamil_playlists w (VList qs) s = (Ok None, s')
         /\ output_file s' = output_file s.
Proof.
  intros Hit.
  assert (forall ts q acc,
             playlist_step w ts q acc it = Raise AttributeError) as Hstep.
  { intros ts q acc. destruct it as [| | | | |d]; try done.
    by destruct (Hit d). }
  split; [exact Hstep|].
  intros qs s existing i q ans its Hm He Hq Hs Hi Hin.
  destruct (collect_raises w (clock w (clock_reads s)) (api_calls s) qs i q
              ans its it AttributeError Hq Hs Hi Hin (Hstep _ _ _))
    as [e' He'].
  destruct (fetch_loop_raises w qs s existing e' Hm He He')
    as (s' & Hf & Hfile & _).
  by exists s'.
Qed.

Lemma item_that_is_not_a_dict_raises_witness :
  exists s',
    fetch_tamil_playlists MoreExamples.odd_world
      (VList [MoreExamples.q_none]) Examples.with_old_table
    = (Ok None, s')
    /\ output_file s' = Some (Ok [Examples.old_row]).
Proof.
  destruct (item_that_is_not_a_dict_raises MoreExamples.odd_world VNone)
    as [_ Hrun]; [done|].
  apply (Hrun [MoreExamples.q_none] Examples.with_old_table
           [Examples.old_row] 0 MoreExamples.q_none
           (Examples.answer [Examples.item "p6" "Tamizh Isai" 9; VNone])
           [Examples.item "p6" "Tamizh Isai" 9; VNone]);
    try reflexivity.
  apply list_elem_of_further, list_elem_of_here.
Defined.

(** X14. The answer itself is read without defaults.  An answer that is
    not a dict, or has no ['playlists'], or whose ['playlists'] has no
    ['items'], raises before any item is looked at; a run that receives
    such an answer returns [None] and leaves the result file as it was. *)
Theorem answer_without_items_raises (w : World) :
  (forall ans, (forall d, ans <> VDict d) -> items_of ans = Raise TypeError)
  /\ (forall d, d !! "playlists" = None ->
                items_of (VDict d) = Raise (KeyError "playlists"))
  /\ (forall d p, d !! "playlists" = Some (VDict p) -> p !! "items" = None ->
                  items_of (VDict d) = Raise (KeyError "items"))
  /\ forall qs s existing i q ans e,
       makedirs_raises w = None -> existing_table s = Ok existing ->
       qs !! i = Some q -> sp_search w (api_calls s + i) q = Ok ans ->
       items_of ans = Raise e ->
       exists s',
         fetch_tamil_playlists w (VList qs) s = (Ok None, s')
         /\ output_file s' = output_file s.
Proof.
  split; [|split; [|split]].
  - intros ans Hans. destruct ans as [| | | | |d]; try done.
    by destruct (Hans d).
  - intros d Hd. unfold items_of. simpl. by rewrite Hd.
  - intros d p Hd Hp. unfold items_of. simpl. rewrite Hd. simpl.
    by rewrite Hp.
  - intros qs s existing i q ans e Hm He Hq Hs Hi.
    destruct (collect_raises_answer w (clock w (clock_reads s)) (api_calls s)
                qs i q ans e Hq Hs Hi) as [e' He'].
    destruct (fetch_loop_raises w qs s existing e' Hm He He')
      as (s' & Hf & Hfile & _).
    by exists s'.
Qed.

Lemma answer_without_items_raises_witness :
  exists s',
    fetch_tamil_playlists MoreExamples.odd_world
      (VList [MoreExamples.q_bare]) Examples.with_old_table
    = (Ok None, s')
    /\ output_file s' = Some (Ok [Examples.old_row]).
Proof.
  destruct (answer_without_items_raises MoreExamples.odd_world)
    as (_ & _ & _ & Hrun).
  apply (Hrun [MoreExamples.q_bare] Examples.with_old_table
           [Examples.old_row] 0 MoreExamples.q_bare (VDict ∅)
           (KeyError "playlists"));
    reflexivity.
Defined.

(** ** Further properties: the keyword filter *)

Section MoreRegexFacts.

Variable U : N -> bool.

Lemma keyword_length kw :
  kw ∈ tamil_keywords -> 5 <= List.length (lit kw).
Proof.
  unfold tamil_keywords. rewrite !elem_of_cons, elem_of_nil.
  intros [->|[->|[->|[->|[->|[]]]]]]; simpl; lia.
Qed.

Lemma keywords_lowercase :
  Forall (fun kw => Forall (fun p => (97 <= p <= 122)%N) (lit kw))
         tamil_keywords.
Proof. apply (bool_decide_unpack _). vm_compute. exact I. Qed.

Lemma is_word_letter x :
  (65 <= x <= 90)%N \/ (97 <= x <= 122)%N -> is_word U x = true.
Proof.
  intros H. unfold is_word, ascii_isalnum.
  assert ((x <? 128)%N = true) as -> by (apply N.ltb_lt; lia).
  rewrite !orb_true_iff, !andb_true_iff, !N.leb_le. lia.
Qed.

Lemma is_word_upper x : is_word U (ascii_upper x) = is_word U x.
Proof.
  unfold ascii_upper.
  destruct ((97 <=? x) && (x <=? 122))%N eqn:E; [|done].
  apply andb_true_iff in E as [H1%N.leb_le H2%N.leb_le].
  rewrite !is_word_letter; [done|lia|lia].
Qed.

Lemma at_boundary_upper (a b : option N) :
  at_boundary U (ascii_upper <$> a) (ascii_upper <$> b) = at_boundary U a b.
Proof.
  unfold at_boundary. destruct a, b; simpl; by rewrite ?is_word_upper.
Qed.

Lemma char_matches_iff p x :
  (97 <= p <= 122)%N ->
  char_matches p x = true <->
  x = p \/ x = (p - 32)%N
  \/ p = 105%N /\ (x = 304%N \/ x = 305%N)
  \/ p = 107%N /\ x = 8490%N \/ p = 115%N /\ x = 383%N.
Proof.
  intros Hp. unfold char_matches, ignorecase_class, ascii_upper.
  assert (((97 <=? p) && (p <=? 122))%N = true) as ->.
  { apply andb_true_iff. split; apply N.leb_le; lia. }
  rewrite existsb_app. simpl.
  destruct (N.eqb_spec p 105);
    [|destruct (N.eqb_spec p 107); [|destruct (N.eqb_spec p 115)]];
    simpl; rewrite ?orb_false_r, ?orb_true_iff, ?N.eqb_eq; lia.
Qed.

Lemma char_matches_upper p x :
  (97 <= p <= 122)%N -> char_matches p (ascii_upper x) = char_matches p x.
Proof.
  intros Hp. apply eq_true_iff_eq. rewrite !char_matches_iff by done.
  unfold ascii_upper.
  destruct ((97 <=? x) && (x <=? 122))%N eqn:E; [|done].
  apply andb_true_iff in E as [H1%N.leb_le H2%N.leb_le]. lia.
Qed.

Lemma match_keyword_upper (kw : pystr) (prev : option N) (text : pystr) :
  Forall (fun p => (97 <= p <= 122)%N) kw ->
  match_keyword kw (ascii_upper <$> prev) (ascii_upper <$> text)
  = (fun lr : option N * pystr =>
       (ascii_upper <$> lr.1, ascii_upper <$> lr.2))
      <$> match_keyword kw prev text.
Proof.
  intros Hkw. revert prev text.
  induction Hkw as [|p kw Hp _ IH]; intros prev text; [done|].
  destruct text as [|x text]; [done|]. simpl.
  rewrite (char_matches_upper p x Hp).
  destruct (char_matches p x); [|done]. exact (IH (Some x) text).
Qed.

Lemma head_fmap_upper (text : pystr) :
  head (ascii_upper <$> text) = ascii_upper <$> head text.
Proof. by destruct text. Qed.

Lemma match_here_upper (prev : option N) (text : pystr) :
  match_here U (ascii_upper <$> prev) (ascii_upper <$> text)
  = match_here U prev text.
Proof.
  unfold match_here. rewrite head_fmap_upper, at_boundary_upper. f_equal.
  pose proof keywords_lowercase as Hk.
  induction Hk as [|kw kws Hkw _ IH]; [done|]. simpl.
  rewrite IH. f_equal. rewrite (match_keyword_upper _ _ _ Hkw).
  destruct (match_keyword (lit kw) prev text) as [[l rest]|]; [|done].
  simpl. by rewrite head_fmap_upper, at_boundary_upper.
Qed.

Lemma search_from_upper (prev : option N) (text : pystr) :
  search_from U (ascii_upper <$> prev) (ascii_upper <$> text)
  = search_from U prev text.
Proof.
  revert prev. induction text as [|c text IH]; intros prev.
  - pose proof (match_here_upper prev []) as H.
    change (match_here U (ascii_upper <$> prev) [] || false
            = match_here U prev [] || false).
    by rewrite <- H.
  - pose proof (match_here_upper prev (c :: text)) as H.
    change (match_here U (ascii_upper <$> prev)
              (ascii_upper <$> c :: text)
            || search_from U (ascii_upper <$> Some c) (ascii_upper <$> text)
            = match_here U prev (c :: text) || search_from U (Some c) text).
    by rewrite H, (IH (Some c)).
Qed.

(** An ASCII spelling of a keyword consists of letters. *)
Lemma spells_ascii_letters kw mid :
  Forall (fun p => (97 <= p <= 122)%N) kw -> spells kw mid ->
  ascii_only mid -> Forall (fun x => is_word U x = true) mid.
Proof.
  intros Hkw Hs. revert Hkw.
  induction Hs as [|p x kw mid Hpx _ IH]; intros Hkw Ha; [constructor|].
  apply Forall_cons in Hkw as [Hp Hkw]. apply Forall_cons in Ha as [Hx Ha].
  constructor; [|by apply IH].
  apply (char_matches_ascii p x Hp Hx) in Hpx. apply is_word_letter. lia.
Qed.

End MoreRegexFacts.

(** X15. A name shorter than five characters never passes the filter:
    none of the keywords fits into it. *)
Theorem short_name_never_matches (U : N -> bool) (name : pystr) :
  List.length name < 5 -> re_search U name = false.
Proof.
  intros Hlen. destruct (re_search U name) eqn:E; [|done].
  apply re_search_spec in E
    as (kw & Hkw & pre & mid & post & -> & Hs & _).
  apply spells_length in Hs. apply keyword_length in Hkw.
  rewrite !length_app in Hlen. lia.
Qed.

Lemma short_name_never_matches_witness :
  List.length (lit "Tami") < 5
  /\ re_search (fun _ => true) (lit "Tami") = false.
Proof.
  split; [simpl; lia|]. apply short_name_never_matches. simpl. lia.
Defined.

(** X16. Any of the five keywords, written in ASCII letters of any case,
    passes the filter wherever it stands alone in a name: at the start or
    after a character that is not a word character, and at the end or
    before a character that is not a word character. *)
Theorem delimited_keyword_matches (U : N -> bool) (kw : string)
    (pre mid post : pystr) :
  kw ∈ tamil_keywords -> spells (lit kw) mid -> ascii_only mid ->
  is_word_opt U (last pre) = false -> is_word_opt U (head post) = false ->
  re_search U (pre ++ mid ++ post) = true.
Proof.
  intros Hkw Hs Ha Hpre Hpost. apply re_search_spec. exists kw.
  split; [done|]. exists pre, mid, post. split; [done|]. split; [done|].
  pose proof keywords_lowercase as Hk. rewrite Forall_forall in Hk.
  pose proof (spells_ascii_letters U _ _ (Hk kw Hkw) Hs Ha) as Hw.
  rewrite Forall_forall in Hw.
  pose proof (spells_keyword_nonempty kw mid Hkw Hs) as Hne.
  unfold at_boundary. rewrite Hpre, Hpost. split.
  - destruct mid as [|x mid]; [done|]. simpl. rewrite Hw; [done|].
    apply list_elem_of_here.
  - destruct (last mid) as [x|] eqn:El.
    + simpl. rewrite Hw; [done|]. by apply last_Some_elem_of.
    + by apply last_None in El.
Qed.

Lemma delimited_keyword_matches_witness :
  re_search (fun _ => false)
    (lit "Best of (" ++ lit "KollyWood" ++ lit ") 2024") = true.
Proof.
  apply (delimited_keyword_matches (fun _ => false) "kollywood").
  - unfold tamil_keywords. apply list_elem_of_further, list_elem_of_here.
  - repeat constructor.
  - apply (bool_decide_unpack _). vm_compute. exact I.
  - reflexivity.
  - reflexivity.
Defined.

(** X17. The verdict of the filter does not depend on the case of the
    ASCII letters of the name: turning its lower-case letters into
    capitals does not change it, so two names that differ only in the
    case of ASCII letters are both accepted or both rejected. *)
Theorem filter_ignores_ascii_case (U : N -> bool) :
  (forall name : pystr,
      re_search U (ascii_upper <$> name) = re_search U name)
  /\ (forall name1 name2 : pystr,
        ascii_upper <$> name1 = ascii_upper <$> name2 ->
        re_search U name1 = re_search U name2).
Proof.
  assert (forall name : pystr,
             re_search U (ascii_upper <$> name) = re_search U name) as Hup.
  { intros name. exact (search_from_upper U None name). }
  split; [exact Hup|].
  intros name1 name2 H. by rewrite <- (Hup name1), <- (Hup name2), H.
Qed.

Lemma filter_ignores_ascii_case_witness :
  ascii_upper <$> lit "tamil HITS" = ascii_upper <$> lit "TAMIL hits"
  /\ re_search (fun _ => false) (lit "tamil HITS")
     = re_search (fun _ => false) (lit "TAMIL hits").
Proof.
  split; [reflexivity|].
  apply (proj2 (filter_ignores_ascii_case (fun _ => false))). reflexivity.
Defined.
